(** * MakeUofT microphone drivers: a shallow embedding of the three sketches

    The repository holds three Arduino sketches that record a microphone
    after a button press and stream signed 16-bit PCM over the serial line:

    - [UnoMicDriver]       : [src/UnoMicDriver.ino], first sketch (debounced
                             button, "STRT"/"DONE" marker bursts);
    - [UnoMicDriverSimple] : [src/UnoMicDriver.ino], second sketch (raw
                             button level, blocking delay, no markers);
    - [Esp32MicDriver]     : [src/unnamed/part_000] (12-bit ADC, 16 kHz,
                             "START"/"STOP" lines, blinking LED).

    Each [loop()] is translated into a function of a small state-and-trace
    monad, statement by statement.

    - The globals that [loop()] assigns are the fields of a record; the
      globals that are only read ([sampleInterval], [maxSamples], the pin
      numbers) are constants, computed as their initialisers compute them.
    - Integers are [Z] with the wrap-around of their C type written out:
      [unsigned long] is 32 bits wide on both boards, [int] is 16 bits wide
      on the Uno and 32 on the ESP32, [int16_t] is 16.  A left shift is a
      multiplication by a power of two followed by the wrap-around.
    - The hardware is an oracle: every pass of [loop] is given the values
      that [digitalRead(buttonPin)], [millis()], [micros()] and
      [analogRead(micPin)] return in that pass, and no assumption is made
      on them.  [digitalRead] of the LED pin, an output, reads back the
      level last written to it.
    - Everything the sketch does to the outside ([digitalWrite],
      [Serial.write], [Serial.println], [delay]) is recorded, in order, as
      a list of events. *)

From Stdlib Require Import String Ascii ZArith List Sorted Bool Lia.
Import ListNotations.
Open Scope Z_scope.

(** ** Arduino primitives *)

Module Arduino.

Inductive Level : Type := LOW | HIGH.

Definition Level_eqb (a b : Level) : bool :=
  match a, b with
  | LOW, LOW | HIGH, HIGH => true
  | _, _ => false
  end.

(** [!level] as used in [digitalWrite(pin, !digitalRead(pin))]. *)
Definition Level_not (a : Level) : Level :=
  match a with LOW => HIGH | HIGH => LOW end.

(** What a pass of [loop] does to the outside world. *)
Inductive Event : Type :=
| DigitalWrite (pin : Z) (v : Level)
| SerialWrite (buf : list Z)
| SerialPrintln (s : string)
| Delay (ms : Z).

(** What the hardware answers during one pass of [loop]. *)
Record Inputs : Type := mkInputs {
  button : Level;   (* digitalRead(buttonPin) *)
  nowMs  : Z;       (* millis() *)
  nowUs  : Z;       (* micros() *)
  adc    : Z        (* analogRead(micPin) *)
}.

(** Machine integers, with their wrap-around written out. *)
Definition uint32 (z : Z) : Z := z mod 2 ^ 32.
Definition int32 (z : Z) : Z := (z + 2 ^ 31) mod 2 ^ 32 - 2 ^ 31.
Definition int16 (z : Z) : Z := (z + 2 ^ 15) mod 2 ^ 16 - 2 ^ 15.

(** The two bytes that [Serial.write] sends for an [int16_t] viewed as a
    byte buffer on a little-endian target: two's complement, low byte
    first. *)
Definition bytes_of_int16 (v : Z) : list Z :=
  [Z.land v 255; Z.land (Z.shiftr v 8) 255].

(** The bytes of a C string literal (without the terminating NUL). *)
Definition ascii_bytes (s : string) : list Z :=
  map (fun c => Z.of_N (N_of_ascii c)) (list_ascii_of_string s).

(** The bytes put on the wire by one event; [Serial.println] appends
    CR LF. *)
Definition wire (e : Event) : list Z :=
  match e with
  | SerialWrite buf => buf
  | SerialPrintln s => ascii_bytes s ++ [13; 10]
  | DigitalWrite _ _ | Delay _ => []
  end.

Definition serial_bytes (tr : list Event) : list Z := flat_map wire tr.

Section Sketch.

(** [G] is the record of the sketch's global variables. *)
Context {G : Type}.

(** The board: the globals and the output latch of every pin. *)
Record Machine : Type := mkMachine {
  globals : G;
  latch : Z -> Level
}.

Definition Sketch (A : Type) : Type := Machine -> A * Machine * list Event.

Definition ret {A} (a : A) : Sketch A := fun m => (a, m, []).

Definition bind {A B} (c : Sketch A) (k : A -> Sketch B) : Sketch B :=
  fun m =>
    let '(a, m1, o1) := c m in
    let '(b, m2, o2) := k a m1 in
    (b, m2, o1 ++ o2).

Definition gets {A} (f : G -> A) : Sketch A :=
  fun m => (f (globals m), m, []).

Definition modify (f : G -> G) : Sketch unit :=
  fun m => (tt, {| globals := f (globals m); latch := latch m |}, []).

Definition emit (e : Event) : Sketch unit := fun m => (tt, m, [e]).

Definition set_pin (l : Z -> Level) (pin : Z) (v : Level) : Z -> Level :=
  fun p => if p =? pin then v else l p.

Definition digitalWrite (pin : Z) (v : Level) : Sketch unit :=
  fun m =>
    (tt,
     {| globals := globals m; latch := set_pin (latch m) pin v |},
     [DigitalWrite pin v]).

(** [inputPin] is the pin that [setup()] configured as [INPUT_PULLUP]: it
    reads the level the hardware presents.  Every other pin reads back the
    level last written to it. *)
Definition digitalRead (inputPin : Z) (env : Inputs) (pin : Z)
  : Sketch Level :=
  fun m => (if pin =? inputPin then button env else latch m pin, m, []).

Definition millis (env : Inputs) : Sketch Z := ret (nowMs env).
Definition micros (env : Inputs) : Sketch Z := ret (nowUs env).
Definition analogRead (env : Inputs) (pin : Z) : Sketch Z := ret (adc env).

Definition Serial_write (buf : list Z) : Sketch unit :=
  emit (SerialWrite buf).
Definition Serial_println (s : string) : Sketch unit :=
  emit (SerialPrintln s).
Definition delay (ms : Z) : Sketch unit := emit (Delay ms).

(** [if (c) { body }] *)
Definition when (c : bool) (body : Sketch unit) : Sketch unit :=
  if c then body else ret tt.

(** [for (int i = 0; i < n; i++) { body }], for a body that does not read
    [i]. *)
Fixpoint for_ (n : nat) (body : Sketch unit) : Sketch unit :=
  match n with
  | O => ret tt
  | S n' => bind body (fun _ => for_ n' body)
  end.

(** Running [loop()] over and over, one oracle answer per pass. *)
Fixpoint run (loop : Inputs -> Sketch unit) (ins : list Inputs)
             (m : Machine) : Machine * list Event :=
  match ins with
  | [] => (m, [])
  | i :: rest =>
      let '(_, m1, o1) := loop i m in
      let '(m2, o2) := run loop rest m1 in
      (m2, o1 ++ o2)
  end.

(** The machine after one pass, and what the pass did. *)
Definition next (loop : Inputs -> Sketch unit) (env : Inputs) (m : Machine)
  : Machine := snd (fst (loop env m)).
Definition events (loop : Inputs -> Sketch unit) (env : Inputs) (m : Machine)
  : list Event := snd (loop env m).

(** The machine after a run, and what the run did. *)
Definition final (loop : Inputs -> Sketch unit) (ins : list Inputs)
  (m : Machine) : Machine := fst (run loop ins m).
Definition trace (loop : Inputs -> Sketch unit) (ins : list Inputs)
  (m : Machine) : list Event := snd (run loop ins m).

End Sketch.

Arguments Machine : clear implicits.
Arguments Sketch : clear implicits.

Declare Scope sketch_scope.
Delimit Scope sketch_scope with sketch.
Notation "x <- c ;; k" := (bind c (fun x => k))
  (at level 61, c at next level, right associativity) : sketch_scope.
Notation "c ;; k" := (bind c (fun _ => k))
  (at level 61, right associativity) : sketch_scope.

(** *** Reading a trace *)

Fixpoint bytes_eqb (a b : list Z) : bool :=
  match a, b with
  | [], [] => true
  | x :: a', y :: b' => (x =? y) && bytes_eqb a' b'
  | _, _ => false
  end.

(** A sample write: [Serial.write] of a two-byte buffer. *)
Definition is_sample (e : Event) : bool :=
  match e with
  | SerialWrite [_; _] => true
  | _ => false
  end.

(** A marker write: [Serial.write] of the four bytes of [tok]. *)
Definition is_marker (tok : string) (e : Event) : bool :=
  match e with
  | SerialWrite [a; b; c; d] => bytes_eqb [a; b; c; d] (ascii_bytes tok)
  | _ => false
  end.

(** A marker line: [Serial.println] of [tok]. *)
Definition is_line (tok : string) (e : Event) : bool :=
  match e with
  | SerialPrintln s => String.eqb s tok
  | _ => false
  end.

(** A write of level [v] to pin [pin]. *)
Definition is_write (pin : Z) (v : Level) (e : Event) : bool :=
  match e with
  | DigitalWrite p x => (p =? pin) && Level_eqb x v
  | _ => false
  end.

(** The markers of the wire protocol, in either form. *)
Definition start_marker (e : Event) : bool :=
  is_marker "STRT" e || is_line "START" e.
Definition stop_marker (e : Event) : bool :=
  is_marker "DONE" e || is_line "STOP" e.

(** Every sample write of the trace lies between a start marker and the
    next stop marker; [open] tells whether a start marker was seen and no
    stop marker since. *)
Fixpoint samples_bracketed (is_start is_stop : Event -> bool) (open : bool)
                           (tr : list Event) : bool :=
  match tr with
  | [] => true
  | e :: tr' =>
      if is_start e then samples_bracketed is_start is_stop true tr'
      else if is_stop e then samples_bracketed is_start is_stop false tr'
      else if is_sample e
           then open && samples_bracketed is_start is_stop open tr'
           else samples_bracketed is_start is_stop open tr'
  end.

(** How many events of a trace satisfy [p]. *)
Definition count_events (p : Event -> bool) (tr : list Event) : nat :=
  length (filter p tr).

(** Two ways to weigh an event: as a sample, or by its bytes on the wire. *)
Definition sample_weight (e : Event) : Z := if is_sample e then 1 else 0.
Definition byte_weight (e : Event) : Z := Z.of_nat (length (wire e)).

End Arduino.

Import Arduino.
Local Open Scope sketch_scope.

(** ** First sketch of [UnoMicDriver.ino]: debounced button, marker bursts *)

Module UnoMicDriver.

Definition A0 : Z := 14.
Definition micPin : Z := A0.
Definition buttonPin : Z := 7.
Definition recordingLedPin : Z := 8.

Definition sampleRate : Z := 8000.
(** [1000000UL / sampleRate], in [unsigned long]. *)
Definition sampleInterval : Z := uint32 (1000000 / uint32 sampleRate).
(** [(unsigned long) sampleRate * 15]. *)
Definition maxSamples : Z := uint32 (uint32 sampleRate * 15).
Definition debounceMs : Z := 40.

(** The globals that [loop()] assigns. *)
Record Globals : Type := mkGlobals {
  lastSampleTime : Z;
  sampleCount : Z;
  recording : bool;
  lastButtonPressed : bool;
  lastButtonChangeMs : Z
}.

Definition set_lastSampleTime (v : Z) (g : Globals) : Globals :=
  mkGlobals v (sampleCount g) (recording g)
            (lastButtonPressed g) (lastButtonChangeMs g).
Definition set_sampleCount (v : Z) (g : Globals) : Globals :=
  mkGlobals (lastSampleTime g) v (recording g)
            (lastButtonPressed g) (lastButtonChangeMs g).
Definition set_recording (v : bool) (g : Globals) : Globals :=
  mkGlobals (lastSampleTime g) (sampleCount g) v
            (lastButtonPressed g) (lastButtonChangeMs g).
Definition set_lastButtonPressed (v : bool) (g : Globals) : Globals :=
  mkGlobals (lastSampleTime g) (sampleCount g) (recording g)
            v (lastButtonChangeMs g).
Definition set_lastButtonChangeMs (v : Z) (g : Globals) : Globals :=
  mkGlobals (lastSampleTime g) (sampleCount g) (recording g)
            (lastButtonPressed g) v.

(** The globals' initialisers. *)
Definition initial : Globals := mkGlobals 0 0 false false 0.

(** [setup()].  The pin modes it sets are fixed for good (see
    [digitalRead]) and opening the serial line emits nothing; what is left
    is the LED driven LOW. *)
Definition setup : Sketch Globals unit :=
  digitalWrite recordingLedPin LOW.

(** The machine when [loop()] is first called. *)
Definition power_on : Machine Globals :=
  snd (fst (setup (mkMachine initial (fun _ => LOW)))).

(** [int16_t pcm = (adc - 512) << 6;] with [adc] an [int], 16 bits wide on
    the Uno. *)
Definition pcm_of_adc (adc : Z) : Z :=
  int16 (Z.shiftl (int16 (adc - 512)) 6).

Definition loop (env : Inputs) : Sketch Globals unit :=
  lvl <- digitalRead buttonPin env buttonPin ;;
  let pressedNow := Level_eqb lvl LOW in
  nowMs <- millis env ;;
  last <- gets lastButtonPressed ;;
  when (negb (Bool.eqb pressedNow last))
    (modify (set_lastButtonChangeMs nowMs) ;;
     modify (set_lastButtonPressed pressedNow)) ;;
  lastChange <- gets lastButtonChangeMs ;;
  let stablePressed :=
    pressedNow && (uint32 (nowMs - lastChange) >? debounceMs) in
  rec <- gets recording ;;
  when (stablePressed && negb rec)
    (modify (set_recording true) ;;
     modify (set_sampleCount 0) ;;
     digitalWrite recordingLedPin HIGH ;;
     for_ 25 (Serial_write (ascii_bytes "STRT") ;; delay 2) ;;
     delay 20) ;;
  rec <- gets recording ;;
  when rec
    (currentTime <- micros env ;;
     lastT <- gets lastSampleTime ;;
     when (uint32 (currentTime - lastT) >=? sampleInterval)
       (modify (set_lastSampleTime currentTime) ;;
        adc <- analogRead env micPin ;;
        let pcm := pcm_of_adc adc in
        Serial_write (bytes_of_int16 pcm) ;;
        modify (fun g => set_sampleCount (uint32 (sampleCount g + 1)) g) ;;
        n <- gets sampleCount ;;
        when (n >=? maxSamples)
          (modify (set_recording false) ;;
           digitalWrite recordingLedPin LOW ;;
           for_ 10 (Serial_write (ascii_bytes "DONE") ;; delay 2)))).

(** The pieces of one pass, named after the source's locals and blocks. *)

(** [pressedNow] *)
Definition pressedNow (env : Inputs) : bool := Level_eqb (button env) LOW.

(** [lastButtonChangeMs] once the debounce block has run. *)
Definition changeMs (env : Inputs) (g : Globals) : Z :=
  if negb (Bool.eqb (pressedNow env) (lastButtonPressed g))
  then nowMs env else lastButtonChangeMs g.

(** [stablePressed] *)
Definition stablePressed (env : Inputs) (g : Globals) : bool :=
  pressedNow env && (uint32 (nowMs env - changeMs env g) >? debounceMs).

(** What the start block emits. *)
Definition start_events : list Event :=
  DigitalWrite recordingLedPin HIGH
  :: concat (repeat [SerialWrite (ascii_bytes "STRT"); Delay 2] 25)
  ++ [Delay 20].

(** What the stop block emits. *)
Definition stop_events : list Event :=
  DigitalWrite recordingLedPin LOW
  :: concat (repeat [SerialWrite (ascii_bytes "DONE"); Delay 2] 10).

(** What a sampling pass emits for its sample. *)
Definition payload (env : Inputs) (m : Machine Globals) : list Event :=
  [SerialWrite (bytes_of_int16 (pcm_of_adc (adc env)))].

(** [sampleCount++] on an [unsigned long]. *)
Definition incr (c : Z) : Z := uint32 (c + 1).

End UnoMicDriver.

(** ** Second sketch of [UnoMicDriver.ino]: raw button level, no markers *)

Module UnoMicDriverSimple.

Definition A0 : Z := 14.
Definition micPin : Z := A0.
Definition buttonPin : Z := 7.
Definition recordingLedPin : Z := 8.

Definition sampleRate : Z := 8000.
Definition sampleInterval : Z := uint32 (1000000 / uint32 sampleRate).
Definition maxSamples : Z := uint32 (uint32 sampleRate * 15).

Record Globals : Type := mkGlobals {
  lastSampleTime : Z;
  sampleCount : Z;
  recording : bool
}.

Definition set_lastSampleTime (v : Z) (g : Globals) : Globals :=
  mkGlobals v (sampleCount g) (recording g).
Definition set_sampleCount (v : Z) (g : Globals) : Globals :=
  mkGlobals (lastSampleTime g) v (recording g).
Definition set_recording (v : bool) (g : Globals) : Globals :=
  mkGlobals (lastSampleTime g) (sampleCount g) v.

Definition initial : Globals := mkGlobals 0 0 false.

Definition setup : Sketch Globals unit :=
  digitalWrite recordingLedPin LOW.

Definition power_on : Machine Globals :=
  snd (fst (setup (mkMachine initial (fun _ => LOW)))).

Definition pcm_of_adc (adc : Z) : Z :=
  int16 (Z.shiftl (int16 (adc - 512)) 6).

Definition loop (env : Inputs) : Sketch Globals unit :=
  lvl <- digitalRead buttonPin env buttonPin ;;
  rec <- gets recording ;;
  when (Level_eqb lvl LOW && negb rec)
    (modify (set_recording true) ;;
     modify (set_sampleCount 0) ;;
     digitalWrite recordingLedPin HIGH ;;
     delay 200) ;;
  rec <- gets recording ;;
  when rec
    (currentTime <- micros env ;;
     lastT <- gets lastSampleTime ;;
     when (uint32 (currentTime - lastT) >=? sampleInterval)
       (modify (set_lastSampleTime currentTime) ;;
        adc <- analogRead env micPin ;;
        let pcm := pcm_of_adc adc in
        Serial_write (bytes_of_int16 pcm) ;;
        modify (fun g => set_sampleCount (uint32 (sampleCount g + 1)) g) ;;
        n <- gets sampleCount ;;
        when (n >=? maxSamples)
          (modify (set_recording false) ;;
           digitalWrite recordingLedPin LOW))).

(** The pieces of one pass. *)

(** The button condition of the start block. *)
Definition pressed (env : Inputs) (g : Globals) : bool :=
  Level_eqb (button env) LOW.

Definition start_events : list Event :=
  [DigitalWrite recordingLedPin HIGH; Delay 200].

Definition stop_events : list Event :=
  [DigitalWrite recordingLedPin LOW].

Definition payload (env : Inputs) (m : Machine Globals) : list Event :=
  [SerialWrite (bytes_of_int16 (pcm_of_adc (adc env)))].

(** [sampleCount++] on an [unsigned long]. *)
Definition incr (c : Z) : Z := uint32 (c + 1).

End UnoMicDriverSimple.

(** ** The ESP32 sketch ([src/unnamed/part_000]): 12-bit ADC, text markers *)

Module Esp32MicDriver.

Definition micPin : Z := 34.
Definition buttonPin : Z := 25.
Definition recordingLedPin : Z := 26.

Definition sampleRate : Z := 16000.
(** [1000000 / sampleRate] in 32-bit [int], stored in an [unsigned long]. *)
Definition sampleInterval : Z := uint32 (int32 (1000000 / sampleRate)).
(** [sampleRate * 15] in 32-bit [int]. *)
Definition maxSamples : Z := int32 (sampleRate * 15).

Record Globals : Type := mkGlobals {
  lastSampleTime : Z;
  sampleCount : Z;
  recording : bool
}.

Definition set_lastSampleTime (v : Z) (g : Globals) : Globals :=
  mkGlobals v (sampleCount g) (recording g).
Definition set_sampleCount (v : Z) (g : Globals) : Globals :=
  mkGlobals (lastSampleTime g) v (recording g).
Definition set_recording (v : bool) (g : Globals) : Globals :=
  mkGlobals (lastSampleTime g) (sampleCount g) v.

Definition initial : Globals := mkGlobals 0 0 false.

(** [setup()]; [analogReadResolution(12)] fixes the range of the readings,
    0 to 4095, and emits nothing. *)
Definition setup : Sketch Globals unit :=
  digitalWrite recordingLedPin LOW.

Definition power_on : Machine Globals :=
  snd (fst (setup (mkMachine initial (fun _ => LOW)))).

(** [int16_t sample = analogRead(micPin) - 2048; sample <<= 4;] *)
Definition pcm_of_adc (adc : Z) : Z :=
  let sample := int16 (adc - 2048) in
  int16 (Z.shiftl sample 4).

Definition loop (env : Inputs) : Sketch Globals unit :=
  lvl <- digitalRead buttonPin env buttonPin ;;
  rec <- gets recording ;;
  when (Level_eqb lvl LOW && negb rec)
    (modify (set_recording true) ;;
     modify (set_sampleCount 0) ;;
     Serial_println "START" ;;
     digitalWrite recordingLedPin HIGH ;;
     delay 200) ;;
  rec <- gets recording ;;
  when rec
    (currentTime <- micros env ;;
     lastT <- gets lastSampleTime ;;
     when (uint32 (currentTime - lastT) >=? sampleInterval)
       (modify (set_lastSampleTime currentTime) ;;
        adc <- analogRead env micPin ;;
        let sample := pcm_of_adc adc in
        Serial_write (bytes_of_int16 sample) ;;
        modify (fun g => set_sampleCount (int32 (sampleCount g + 1)) g) ;;
        n <- gets sampleCount ;;
        when (Z.rem n sampleRate =? 0)
          (led <- digitalRead buttonPin env recordingLedPin ;;
           digitalWrite recordingLedPin (Level_not led)) ;;
        n <- gets sampleCount ;;
        when (n >=? maxSamples)
          (modify (set_recording false) ;;
           Serial_println "STOP" ;;
           digitalWrite recordingLedPin LOW))).

(** The pieces of one pass. *)

(** The button condition of the start block. *)
Definition pressed (env : Inputs) (g : Globals) : bool :=
  Level_eqb (button env) LOW.

Definition start_events : list Event :=
  [SerialPrintln "START"; DigitalWrite recordingLedPin HIGH; Delay 200].

Definition stop_events : list Event :=
  [SerialPrintln "STOP"; DigitalWrite recordingLedPin LOW].

(** [sampleCount++] on a 32-bit [int]. *)
Definition incr (c : Z) : Z := int32 (c + 1).

(** The LED level that the blink reads back, and [sampleCount] after the
    increment, in a pass that takes a sample. *)
Definition led_at_sample (env : Inputs) (m : Machine Globals) : Level :=
  if pressed env (globals m) && negb (recording (globals m))
  then HIGH else latch m recordingLedPin.

Definition count_at_sample (env : Inputs) (g : Globals) : Z :=
  incr (if pressed env g && negb (recording g) then 0 else sampleCount g).

(** What a sampling pass emits for its sample: the two bytes and, once
    every [sampleRate] samples, the LED toggle. *)
Definition payload (env : Inputs) (m : Machine Globals) : list Event :=
  SerialWrite (bytes_of_int16 (pcm_of_adc (adc env)))
  :: (if Z.rem (count_at_sample env (globals m)) sampleRate =? 0
      then [DigitalWrite recordingLedPin (Level_not (led_at_sample env m))]
      else []).

End Esp32MicDriver.

(** ** Recording sessions, for any of the three sketches

    The three [loop()] functions share one shape: an optional start block,
    an optional sample, an optional stop block.  This section gives the
    vocabulary for that shape, over an arbitrary [loop] and the globals it
    uses: what one pass does as seen from the session ([pass_view]), the
    traces a recorder may produce ([sessions]) and the functions that read
    a trace back.  The section [Recorder] further down takes the shape as
    a hypothesis and derives the session-level facts; each sketch then
    discharges the hypothesis from its own code. *)

Section RecorderModel.

Context {G : Type}.
Variable loop : Inputs -> Sketch G unit.
Variable recording : G -> bool.
Variables sampleCount lastSampleTime : G -> Z.
Variables maxSamples sampleInterval : Z.
(** [sampleCount++] in the type the sketch gives to [sampleCount]. *)
Variable incr : Z -> Z.
(** The button condition of the start block. *)
Variable trigger : Inputs -> G -> bool.
Variables start_events stop_events : list Event.
(** What a pass that takes a sample emits for it. *)
Variable payload : Inputs -> Machine G -> list Event.

Definition started (env : Inputs) (g : G) : bool :=
  trigger env g && negb (recording g).

Definition active (env : Inputs) (g : G) : bool :=
  recording g || started env g.

Definition due (env : Inputs) (g : G) : bool :=
  uint32 (nowUs env - lastSampleTime g) >=? sampleInterval.

Definition sampled (env : Inputs) (g : G) : bool :=
  active env g && due env g.

Definition counted (env : Inputs) (g : G) : Z :=
  let c0 := if started env g then 0 else sampleCount g in
  if sampled env g then incr c0 else c0.

Definition finished (env : Inputs) (g : G) : bool :=
  sampled env g && (counted env g >=? maxSamples).

(** One pass of [loop], seen from the session. *)
Record pass_view (env : Inputs) (m : Machine G) : Prop := {
  view_recording :
    recording (globals (next loop env m))
    = active env (globals m) && negb (finished env (globals m));
  view_count :
    sampleCount (globals (next loop env m)) = counted env (globals m);
  view_time :
    lastSampleTime (globals (next loop env m))
    = if sampled env (globals m) then nowUs env
      else lastSampleTime (globals m);
  view_events :
    events loop env m
    = (if started env (globals m) then start_events else [])
      ++ (if sampled env (globals m) then payload env m else [])
      ++ (if finished env (globals m) then stop_events else [])
}.

(** The session invariant of the data model. *)
Definition session_ok (g : G) : Prop :=
  recording g = true -> 0 <= sampleCount g < maxSamples.

(** Where a machine stands: idle, or in a session with [c] samples sent. *)
Definition phase (g : G) : option Z :=
  if recording g then Some (sampleCount g) else None.

(** The event traces a recorder may produce from a given phase: a session
    is the start block, then [maxSamples] payloads, then the stop block;
    the last session of a trace may be cut short. *)
Inductive sessions : option Z -> list Event -> Prop :=
| sessions_nil ph : sessions ph []
| sessions_start tr :
    sessions (Some 0) tr -> sessions None (start_events ++ tr)
| sessions_sample c env m tr :
    0 <= c -> c + 1 < maxSamples ->
    sessions (Some (c + 1)) tr ->
    sessions (Some c) (payload env m ++ tr)
| sessions_last c env m tr :
    c + 1 = maxSamples ->
    sessions None tr ->
    sessions (Some c) (payload env m ++ stop_events ++ tr).

(** Reading a trace back: [session_sums] walks over the events, opens a
    session at every start marker, adds up the weight [w] of the events
    that follow and, at the first stop marker, closes the session and
    reports the sum. *)
Variables is_start is_stop : Event -> bool.
Variable w : Event -> Z.

Fixpoint session_sums (open : option Z) (tr : list Event) : list Z :=
  match tr with
  | [] => []
  | e :: tr' =>
      if is_start e then session_sums (Some 0) tr'
      else if is_stop e then
        match open with
        | Some n => n :: session_sums None tr'
        | None => session_sums None tr'
        end
      else session_sums (option_map (fun n => n + w e) open) tr'
  end.

(** The sample writes of a trace. *)
Variable is_sample : Event -> bool.

Definition samples_in (tr : list Event) : nat := count_events is_sample tr.

(** The clock readings of the passes that took a sample, in order. *)
Fixpoint accepted (ins : list Inputs) (m : Machine G) : list Z :=
  match ins with
  | [] => []
  | env :: rest =>
      (if (0 <? samples_in (events loop env m))%nat then [nowUs env] else [])
      ++ accepted rest (next loop env m)
  end.

(** Every reading is at least [sampleInterval] after the one before it, in
    wrap-around-safe unsigned arithmetic; [last] is the reading before the
    first. *)
Fixpoint spaced (last : Z) (ts : list Z) : Prop :=
  match ts with
  | [] => True
  | t :: ts' => sampleInterval <= uint32 (t - last) /\ spaced t ts'
  end.

(** The same with true time.  [Ts] gives, pass by pass, the time in
    microseconds at which [micros()] is read, on a clock that never wraps;
    [accepted_at] keeps the times of the passes that took a sample, and
    [apart] says that each is at least [sampleInterval] after the one
    before it. *)
Fixpoint accepted_at (Ts : list Z) (ins : list Inputs) (m : Machine G)
  : list Z :=
  match Ts, ins with
  | T :: Ts', env :: rest =>
      (if (0 <? samples_in (events loop env m))%nat then [T] else [])
      ++ accepted_at Ts' rest (next loop env m)
  | _, _ => []
  end.

Fixpoint apart (last : Z) (Ts : list Z) : Prop :=
  match Ts with
  | [] => True
  | T :: Ts' => sampleInterval <= T - last /\ apart T Ts'
  end.

(** Every pass of [ins] finds its sample due. *)
Fixpoint all_due (last : Z) (ins : list Inputs) : bool :=
  match ins with
  | [] => true
  | env :: rest =>
      (uint32 (nowUs env - last) >=? sampleInterval) && all_due (nowUs env) rest
  end.

End RecorderModel.

(** ** The three sketches in the terms of the model *)

Module Uno := UnoMicDriver.
Module Simple := UnoMicDriverSimple.
Module Esp := Esp32MicDriver.

(** *** One pass of each [loop()] in closed form

    The view functions of the model at each sketch's globals, and with
    them the machine that a pass leaves and the events it emits.  That
    these are what [loop] computes is proved below ([uno_loop_eq],
    [simple_loop_eq], [esp32_loop_eq]). *)

Definition uno_started := started Uno.recording Uno.stablePressed.
Definition uno_active := active Uno.recording Uno.stablePressed.
Definition uno_sampled :=
  sampled Uno.recording Uno.lastSampleTime Uno.sampleInterval
          Uno.stablePressed.
Definition uno_counted :=
  counted Uno.recording Uno.sampleCount Uno.lastSampleTime
          Uno.sampleInterval Uno.incr Uno.stablePressed.
Definition uno_finished :=
  finished Uno.recording Uno.sampleCount Uno.lastSampleTime Uno.maxSamples
           Uno.sampleInterval Uno.incr Uno.stablePressed.

Definition uno_after (env : Inputs) (m : Machine Uno.Globals)
  : Machine Uno.Globals :=
  let g := globals m in
  {| globals :=
       {| Uno.lastSampleTime :=
            if uno_sampled env g then nowUs env else Uno.lastSampleTime g;
          Uno.sampleCount := uno_counted env g;
          Uno.recording := uno_active env g && negb (uno_finished env g);
          Uno.lastButtonPressed := Uno.pressedNow env;
          Uno.lastButtonChangeMs := Uno.changeMs env g |};
     latch :=
       let l1 := if uno_started env g
                 then set_pin (latch m) Uno.recordingLedPin HIGH
                 else latch m in
       if uno_finished env g then set_pin l1 Uno.recordingLedPin LOW
       else l1 |}.

Definition uno_events (env : Inputs) (m : Machine Uno.Globals)
  : list Event :=
  (if uno_started env (globals m) then Uno.start_events else [])
  ++ (if uno_sampled env (globals m) then Uno.payload env m else [])
  ++ (if uno_finished env (globals m) then Uno.stop_events else []).

Definition simple_started := started Simple.recording Simple.pressed.
Definition simple_active := active Simple.recording Simple.pressed.
Definition simple_sampled :=
  sampled Simple.recording Simple.lastSampleTime Simple.sampleInterval
          Simple.pressed.
Definition simple_counted :=
  counted Simple.recording Simple.sampleCount Simple.lastSampleTime
          Simple.sampleInterval Simple.incr Simple.pressed.
Definition simple_finished :=
  finished Simple.recording Simple.sampleCount Simple.lastSampleTime
           Simple.maxSamples Simple.sampleInterval Simple.incr
           Simple.pressed.

Definition simple_after (env : Inputs) (m : Machine Simple.Globals)
  : Machine Simple.Globals :=
  let g := globals m in
  {| globals :=
       {| Simple.lastSampleTime :=
            if simple_sampled env g then nowUs env
            else Simple.lastSampleTime g;
          Simple.sampleCount := simple_counted env g;
          Simple.recording :=
            simple_active env g && negb (simple_finished env g) |};
     latch :=
       let l1 := if simple_started env g
                 then set_pin (latch m) Simple.recordingLedPin HIGH
                 else latch m in
       if simple_finished env g then set_pin l1 Simple.recordingLedPin LOW
       else l1 |}.

Definition simple_events (env : Inputs) (m : Machine Simple.Globals)
  : list Event :=
  (if simple_started env (globals m) then Simple.start_events else [])
  ++ (if simple_sampled env (globals m) then Simple.payload env m else [])
  ++ (if simple_finished env (globals m) then Simple.stop_events else []).

Definition esp32_started := started Esp.recording Esp.pressed.
Definition esp32_active := active Esp.recording Esp.pressed.
Definition esp32_sampled :=
  sampled Esp.recording Esp.lastSampleTime Esp.sampleInterval Esp.pressed.
Definition esp32_counted :=
  counted Esp.recording Esp.sampleCount Esp.lastSampleTime
          Esp.sampleInterval Esp.incr Esp.pressed.
Definition esp32_finished :=
  finished Esp.recording Esp.sampleCount Esp.lastSampleTime Esp.maxSamples
           Esp.sampleInterval Esp.incr Esp.pressed.

(** The pass toggles the LED: it takes a sample and [sampleCount] has come
    to a multiple of [sampleRate]. *)
Definition esp32_blinks (env : Inputs) (g : Esp.Globals) : bool :=
  esp32_sampled env g && (Z.rem (esp32_counted env g) Esp.sampleRate =? 0).

Definition esp32_after (env : Inputs) (m : Machine Esp.Globals)
  : Machine Esp.Globals :=
  let g := globals m in
  {| globals :=
       {| Esp.lastSampleTime :=
            if esp32_sampled env g then nowUs env else Esp.lastSampleTime g;
          Esp.sampleCount := esp32_counted env g;
          Esp.recording := esp32_active env g && negb (esp32_finished env g)
       |};
     latch :=
       let l1 := if esp32_started env g
                 then set_pin (latch m) Esp.recordingLedPin HIGH
                 else latch m in
       let l2 := if esp32_blinks env g
                 then set_pin l1 Esp.recordingLedPin
                              (Level_not (l1 Esp.recordingLedPin))
                 else l1 in
       if esp32_finished env g then set_pin l2 Esp.recordingLedPin LOW
       else l2 |}.

Definition esp32_events (env : Inputs) (m : Machine Esp.Globals)
  : list Event :=
  (if esp32_started env (globals m) then Esp.start_events else [])
  ++ (if esp32_sampled env (globals m) then Esp.payload env m else [])
  ++ (if esp32_finished env (globals m) then Esp.stop_events else []).

(** *** Scenarios *)

(** The round trip in the first sketch.  The button is held from the first
    pass; the press is stable in the second pass, 41 ms later, which starts
    the session, spends 70 ms on the start block and takes the first
    sample; every later pass finds its sample due. *)
Definition round_trip_uno : list Inputs :=
  [ mkInputs LOW 0 0 0;
    mkInputs LOW 41 111125 512;
    mkInputs LOW 111 111250 512;
    mkInputs LOW 111 111375 1023;
    mkInputs LOW 111 111500 0 ].

(** The round trip in the second sketch: the first pass starts the session
    and reads the clock after its 200 ms delay. *)
Definition round_trip_simple : list Inputs :=
  [ mkInputs LOW 0 200125 512;
    mkInputs LOW 200 200250 512;
    mkInputs LOW 200 200375 1023;
    mkInputs LOW 200 200500 0 ].

(** The sample writes of a trace. *)
Definition samples_of (tr : list Event) : list Event := filter is_sample tr.

(** The state of a session that has two samples left to send. *)
Definition uno_two_to_go : Machine Uno.Globals :=
  {| globals :=
       {| Uno.lastSampleTime := 15040750;
          Uno.sampleCount := 119998;
          Uno.recording := true;
          Uno.lastButtonPressed := false;
          Uno.lastButtonChangeMs := 100 |};
     latch := set_pin (fun _ => LOW) Uno.recordingLedPin HIGH |}.

(** Two passes, both due from [uno_two_to_go]; the button changes. *)
Definition last_two_passes : list Inputs :=
  [ mkInputs LOW 15041 15040875 700; mkInputs HIGH 15041 15041000 300 ].

(** Three passes of a running session while the microsecond counter wraps:
    the true times of the [micros()] calls, what the counter reads then,
    and a machine whose last sample was taken 200 us before the wrap. *)
Definition wrap_times : list Z := [4294967196; 4294967326; 4294967496].

Definition wrap_passes : list Inputs :=
  [ mkInputs HIGH 4294967 4294967196 500;
    mkInputs HIGH 4294967 30 500;
    mkInputs HIGH 4294967 200 500 ].

Definition uno_before_wrap : Machine Uno.Globals :=
  {| globals :=
       {| Uno.lastSampleTime := 4294967096;
          Uno.sampleCount := 7;
          Uno.recording := true;
          Uno.lastButtonPressed := false;
          Uno.lastButtonChangeMs := 100 |};
     latch := set_pin (fun _ => LOW) Uno.recordingLedPin HIGH |}.

(** One pass of the second Uno sketch from power-on: the button is down
    and the sample is due after the 200 ms delay. *)
Definition one_pass : list Inputs := [ mkInputs LOW 0 200125 512 ].

(** The raw readings of the button never stay pressed for longer than [w]
    milliseconds: [since] is the [millis()] reading of the pass in which
    the current run of pressed readings began (none if the last reading was
    released), and every pressed reading is at most [w] after it, by the
    sketch's unsigned subtraction. *)
Fixpoint bounces_within (w : Z) (since : option Z) (ins : list Inputs)
  : bool :=
  match ins with
  | [] => true
  | env :: rest =>
      if Uno.pressedNow env then
        let t0 := match since with Some t => t | None => nowMs env end in
        (uint32 (nowMs env - t0) <=? w) && bounces_within w (Some t0) rest
      else bounces_within w None rest
  end.

(** A bounce train of period 5 ms, read every 250 us for 200 ms: the
    button reads LOW for 3 ms, then HIGH for 2 ms, and so on. *)
Definition bounce_train : list Inputs :=
  map (fun k => let t := 250 * k in
                mkInputs (if t mod 5000 <? 3000 then LOW else HIGH)
                         (t / 1000) t 512)
      (map Z.of_nat (seq 0 800)).

(** How the debounce globals follow the readings. *)
Definition debounce_tracks (g : Uno.Globals) (since : option Z) : Prop :=
  match since with
  | None => Uno.lastButtonPressed g = false
  | Some t => Uno.lastButtonPressed g = true /\ Uno.lastButtonChangeMs g = t
  end.

(** [n] passes with the button held down, one every 125 us from time [t]
    (in us) on; [millis()] reads the same clock. *)
Fixpoint held (t : Z) (n : nat) : list Inputs :=
  match n with
  | O => []
  | S n' => mkInputs LOW (t / 1000) t 512 :: held (t + 125) n'
  end.

(** A press held for a little over 15.2 s in the second Uno sketch: the
    first pass starts the session and reads the clock after its 200 ms
    delay, 119999 passes follow 125 us apart, and the button is still down
    in the pass after the one that sends the 120000th sample. *)
Definition long_press : list Inputs :=
  (mkInputs LOW 0 200125 512 :: held 200250 (Z.to_nat 119999))
  ++ [mkInputs LOW 15200 15200125 512].

(** The same press in the first Uno sketch: 328 idle passes until the
    press has been stable for 41 ms, the pass that starts the session (its
    clock is read after the 70 ms start block), 119999 more passes, and one
    pass after the end of the session, the button still down. *)
Definition long_press_idle : list Inputs :=
  mkInputs LOW 0 0 512 :: held 125 327.

Definition long_press_start : Inputs := mkInputs LOW 41 111000 512.

Definition long_press_after : Inputs := mkInputs LOW 15111 15111000 512.

Definition long_press_uno : list Inputs :=
  long_press_idle
  ++ (long_press_start :: held (111000 + 125) (Z.to_nat 119999))
  ++ [long_press_after].

(** The level of the LED in a session that has sent [c] samples: HIGH in
    the first second of audio, LOW in the next, and so on. *)
Definition led_level (c : Z) : Level :=
  if Z.even (c / Esp.sampleRate) then HIGH else LOW.

Definition led_ok (m : Machine Esp.Globals) : Prop :=
  latch m Esp.recordingLedPin
  = if Esp.recording (globals m)
    then led_level (Esp.sampleCount (globals m))
    else LOW.

(** The first 16000 samples of a session of the ESP32 sketch: the pass
    that starts it and 15999 more, all due. *)
Definition first_second : list Inputs :=
  mkInputs LOW 0 200125 512 :: held 200250 (Z.to_nat 15999).

(** *** Reading the wire and the clock *)

(** Two bytes read as a little-endian two's-complement 16-bit integer, as
    the receiver of the stream reads a sample. *)
Definition int16_of_bytes (lo hi : Z) : Z := int16 (lo + 256 * hi).

(** The payload of a sequence of ADC readings: the bytes that the sample
    writes of converter [pcm_of] put on the wire, one after the other. *)
Definition payload_bytes (pcm_of : Z -> Z) (adcs : list Z) : list Z :=
  flat_map (fun r => bytes_of_int16 (pcm_of r)) adcs.

(** [pat] is at the head of [l]. *)
Fixpoint prefix_of (pat l : list Z) : bool :=
  match pat, l with
  | [], _ => true
  | x :: pat', y :: l' => (x =? y) && prefix_of pat' l'
  | _ :: _, [] => false
  end.

(** [pat] occurs in [l] as a contiguous run, at any offset. *)
Fixpoint occurs_in (pat l : list Z) : bool :=
  prefix_of pat l
  || match l with
     | [] => false
     | _ :: l' => occurs_in pat l'
     end.

(** The ADC readings of the passes that took a sample, in order. *)
Fixpoint readings {G : Type} (loop : Inputs -> Sketch G unit)
  (ins : list Inputs) (m : Machine G) : list Z :=
  match ins with
  | [] => []
  | env :: rest =>
      (if (0 <? count_events is_sample (events loop env m))%nat
       then [adc env] else [])
      ++ readings loop rest (next loop env m)
  end.

(** The time, in milliseconds, that a trace spends in [delay]. *)
Fixpoint total_delay (tr : list Event) : Z :=
  match tr with
  | [] => 0
  | Delay ms :: tr' => ms + total_delay tr'
  | _ :: tr' => total_delay tr'
  end.

(** 100 ms of passes with the button released, one every 250 us. *)
Definition quiet_passes : list Inputs :=
  map (fun k => mkInputs HIGH (k / 4) (250 * k) 512)
      (map Z.of_nat (seq 0 400)).

(** ** Facts about recorders *)

Section Recorder.

Context {G : Type}.
Variable loop : Inputs -> Sketch G unit.
Variable recording : G -> bool.
Variables sampleCount lastSampleTime : G -> Z.
Variables maxSamples sampleInterval : Z.
Variable incr : Z -> Z.
Variable trigger : Inputs -> G -> bool.
Variables start_events stop_events : list Event.
Variable payload : Inputs -> Machine G -> list Event.
Variables is_start is_stop : Event -> bool.
Variable w : Event -> Z.
Variable is_sample : Event -> bool.

Local Abbreviation started := (started recording trigger).
Local Abbreviation active := (active recording trigger).
Local Abbreviation due := (due lastSampleTime sampleInterval).
Local Abbreviation sampled :=
  (sampled recording lastSampleTime sampleInterval trigger).
Local Abbreviation counted :=
  (counted recording sampleCount lastSampleTime sampleInterval incr trigger).
Local Abbreviation finished :=
  (finished recording sampleCount lastSampleTime maxSamples sampleInterval
            incr trigger).
Local Abbreviation pass_view :=
  (pass_view loop recording sampleCount lastSampleTime maxSamples
             sampleInterval incr trigger start_events stop_events payload).
Local Abbreviation view_time :=
  (view_time loop recording sampleCount lastSampleTime maxSamples
             sampleInterval incr trigger start_events stop_events payload).
Local Abbreviation view_events :=
  (view_events loop recording sampleCount lastSampleTime maxSamples
               sampleInterval incr trigger start_events stop_events payload).
Local Abbreviation session_ok := (session_ok recording sampleCount maxSamples).
Local Abbreviation phase := (phase recording sampleCount).
Local Abbreviation sessions :=
  (sessions maxSamples start_events stop_events payload).
Local Abbreviation session_sums := (session_sums is_start is_stop w).
Local Abbreviation samples_in := (samples_in is_sample).
Local Abbreviation accepted := (accepted loop is_sample).
Local Abbreviation spaced := (spaced sampleInterval).
Local Abbreviation accepted_at := (accepted_at loop is_sample).
Local Abbreviation apart := (apart sampleInterval).
Local Abbreviation all_due := (all_due sampleInterval).

Hypothesis maxSamples_pos : 0 < maxSamples.
Hypothesis incr_small : forall c, 0 <= c < maxSamples -> incr c = c + 1.
Hypothesis loop_view : forall env m, pass_view env m.

Lemma run_cons (env : Inputs) (rest : list Inputs) (m : Machine G) :
  final loop (env :: rest) m = final loop rest (next loop env m) /\
  trace loop (env :: rest) m
  = events loop env m ++ trace loop rest (next loop env m).
Proof.
  unfold final, trace, next, events. cbn [run].
  destruct (loop env m) as [[u m1] o1]. cbn [fst snd].
  destruct (run loop rest m1) as [m2 o2]. cbn [fst snd]. auto.
Qed.

Lemma final_cons env rest m :
  final loop (env :: rest) m = final loop rest (next loop env m).
Proof. apply run_cons. Qed.

Lemma trace_cons env rest m :
  trace loop (env :: rest) m
  = events loop env m ++ trace loop rest (next loop env m).
Proof. apply run_cons. Qed.

Lemma final_app ins1 ins2 m :
  final loop (ins1 ++ ins2) m = final loop ins2 (final loop ins1 m).
Proof.
  revert m. induction ins1 as [|env ins1 IH]; intro m.
  - reflexivity.
  - rewrite <- app_comm_cons, !final_cons. apply IH.
Qed.

Lemma trace_app ins1 ins2 m :
  trace loop (ins1 ++ ins2) m
  = trace loop ins1 m ++ trace loop ins2 (final loop ins1 m).
Proof.
  revert m. induction ins1 as [|env ins1 IH]; intro m.
  - reflexivity.
  - rewrite <- app_comm_cons, !trace_cons, final_cons, IH.
    now rewrite app_assoc.
Qed.

(** *** The session invariant *)

Lemma pass_session_ok env m :
  session_ok (globals m) -> session_ok (globals (next loop env m)).
Proof.
  destruct (loop_view env m) as [Hr Hc _ _].
  unfold session_ok. rewrite Hr, Hc.
  unfold finished, counted, sampled, active, started.
  intros Hok.
  destruct (recording (globals m)) eqn:R; cbn.
  - specialize (Hok eq_refl). rewrite andb_false_r. cbn.
    destruct (due env (globals m)); cbn.
    + rewrite incr_small by lia.
      destruct (sampleCount (globals m) + 1 >=? maxSamples) eqn:E; cbn;
        [discriminate | lia].
    + lia.
  - rewrite andb_true_r.
    destruct (trigger env (globals m)); cbn; [|discriminate].
    destruct (due env (globals m)); cbn.
    + rewrite incr_small by lia.
      destruct (0 + 1 >=? maxSamples) eqn:E; cbn; [discriminate | lia].
    + lia.
Qed.

Lemma run_session_ok ins m :
  session_ok (globals m) -> session_ok (globals (final loop ins m)).
Proof.
  revert m. induction ins as [|env ins IH]; intros m Hok.
  - exact Hok.
  - rewrite final_cons. apply IH, pass_session_ok, Hok.
Qed.

(** While a session runs, the pass that ends it is the pass whose sample
    brings [sampleCount] to [maxSamples]. *)
Lemma pass_ends_iff env m :
  session_ok (globals m) ->
  recording (globals m) = true ->
  (recording (globals (next loop env m)) = false
   <-> sampleCount (globals (next loop env m)) = maxSamples).
Proof.
  intros Hok R. specialize (Hok R).
  destruct (loop_view env m) as [Hr Hc _ _]. rewrite Hr, Hc.
  unfold finished, counted, sampled, active, started. rewrite R. cbn.
  rewrite andb_false_r. cbn.
  destruct (due env (globals m)); cbn.
  - rewrite incr_small by lia.
    destruct (sampleCount (globals m) + 1 >=? maxSamples) eqn:E; cbn.
    + split; [lia | reflexivity].
    + split; [discriminate | lia].
  - split; [discriminate | lia].
Qed.

(** The counter stays within its bounds, also when idle: an idle machine
    has never recorded ([sampleCount] is 0) or has completed its last
    session ([sampleCount] is [maxSamples]). *)
Lemma pass_counter_bounds env m :
  (if recording (globals m)
   then 0 <= sampleCount (globals m) < maxSamples
   else sampleCount (globals m) = 0
        \/ sampleCount (globals m) = maxSamples) ->
  (if recording (globals (next loop env m))
   then 0 <= sampleCount (globals (next loop env m)) < maxSamples
   else sampleCount (globals (next loop env m)) = 0
        \/ sampleCount (globals (next loop env m)) = maxSamples).
Proof.
  destruct (loop_view env m) as [Hr Hc _ _]. rewrite Hr, Hc.
  unfold finished, counted, sampled, active, started.
  destruct (recording (globals m)) eqn:R; cbn; intro Hb.
  - rewrite andb_false_r. cbn.
    destruct (due env (globals m)); cbn; [|exact Hb].
    rewrite incr_small by lia.
    destruct (sampleCount (globals m) + 1 >=? maxSamples) eqn:E; cbn; lia.
  - rewrite andb_true_r.
    destruct (trigger env (globals m)); cbn; [|exact Hb].
    destruct (due env (globals m)); cbn; [|lia].
    rewrite incr_small by lia.
    destruct (0 + 1 >=? maxSamples) eqn:E; cbn; lia.
Qed.

Lemma run_counter_bounds ins : forall m,
  (if recording (globals m)
   then 0 <= sampleCount (globals m) < maxSamples
   else sampleCount (globals m) = 0
        \/ sampleCount (globals m) = maxSamples) ->
  (if recording (globals (final loop ins m))
   then 0 <= sampleCount (globals (final loop ins m)) < maxSamples
   else sampleCount (globals (final loop ins m)) = 0
        \/ sampleCount (globals (final loop ins m)) = maxSamples).
Proof.
  induction ins as [|env ins IH]; intros m Hb.
  - exact Hb.
  - rewrite final_cons. apply IH, pass_counter_bounds, Hb.
Qed.

(** While a session runs, the pass does not look at the trigger. *)
Lemma recording_view env g :
  recording g = true ->
  started env g = false /\
  active env g = true /\
  sampled env g = due env g /\
  counted env g
  = (if due env g then incr (sampleCount g) else sampleCount g) /\
  finished env g = due env g && (incr (sampleCount g) >=? maxSamples).
Proof.
  intro R. unfold finished, counted, sampled, active, started.
  rewrite R, andb_false_r. cbn.
  destruct (due env g); repeat split; reflexivity.
Qed.

(** *** The shape of a trace *)

Lemma phase_next env m :
  phase (globals (next loop env m))
  = if active env (globals m) && negb (finished env (globals m))
    then Some (counted env (globals m)) else None.
Proof.
  destruct (loop_view env m) as [Hr Hc _ _].
  unfold phase. now rewrite Hr, Hc.
Qed.

Lemma run_sessions ins : forall m,
  session_ok (globals m) ->
  sessions (phase (globals m)) (trace loop ins m).
Proof.
  induction ins as [|env ins IH]; intros m Hok.
  - apply sessions_nil.
  - rewrite trace_cons.
    pose proof (IH _ (pass_session_ok env m Hok)) as Hrest.
    rewrite phase_next in Hrest.
    rewrite (view_events _ _ (loop_view env m)), <- !app_assoc.
    revert Hrest. unfold phase, session_ok in *.
    unfold finished, counted, sampled, active, started.
    destruct (recording (globals m)) eqn:R; cbn.
    + specialize (Hok eq_refl). rewrite andb_false_r. cbn.
      destruct (due env (globals m)); cbn; [|now rewrite ?app_nil_r].
      rewrite incr_small by lia.
      destruct (sampleCount (globals m) + 1 >=? maxSamples) eqn:E; cbn;
        intro Hrest.
      * apply sessions_last; [lia | exact Hrest].
      * rewrite ?app_nil_r. apply sessions_sample; [lia | lia | exact Hrest].
    + rewrite andb_true_r.
      destruct (trigger env (globals m)); cbn; [|now rewrite ?app_nil_r].
      destruct (due env (globals m)); cbn.
      * rewrite incr_small by lia.
        destruct (0 + 1 >=? maxSamples) eqn:E; cbn; intro Hrest;
          apply sessions_start.
        -- apply sessions_last; [lia | exact Hrest].
        -- rewrite ?app_nil_r.
           apply sessions_sample; [lia | lia | exact Hrest].
      * rewrite ?app_nil_r. intro Hrest. now apply sessions_start.
Qed.

(** *** Reading the sessions back from a trace *)

Section Scan.
(** The weight of one payload. *)
Variable per_sample : Z.
Hypothesis scan_start : forall o tr,
  session_sums o (start_events ++ tr) = session_sums (Some 0) tr.
Hypothesis scan_payload : forall n env m tr,
  session_sums (Some n) (payload env m ++ tr)
  = session_sums (Some (n + per_sample)) tr.
Hypothesis scan_stop : forall n tr,
  session_sums (Some n) (stop_events ++ tr) = n :: session_sums None tr.

Lemma sessions_sums ph tr :
  sessions ph tr ->
  forall o,
    match ph with Some c => o = Some (per_sample * c) | None => True end ->
    Forall (fun n => n = per_sample * maxSamples) (session_sums o tr).
Proof.
  induction 1 as [ph | tr _ IH | c env m tr Hc0 Hc _ IH | c env m tr Hc _ IH];
    intros o Ho.
  - constructor.
  - rewrite scan_start. apply IH. now rewrite Z.mul_0_r.
  - subst o. rewrite scan_payload. apply IH. f_equal. lia.
  - subst o. rewrite scan_payload, scan_stop. constructor.
    + rewrite <- Hc. ring.
    + now apply IH.
Qed.

Lemma run_sums ins m :
  session_ok (globals m) ->
  recording (globals m) = false ->
  Forall (fun n => n = per_sample * maxSamples)
         (session_sums None (trace loop ins m)).
Proof.
  intros Hok R.
  apply (sessions_sums (phase (globals m))); [now apply run_sessions|].
  unfold phase. now rewrite R.
Qed.

End Scan.

(** *** Samples, one at a time and spaced out *)

Section Samples.
Hypothesis samples_start : samples_in start_events = 0%nat.
Hypothesis samples_stop : samples_in stop_events = 0%nat.
Hypothesis samples_payload : forall env m, samples_in (payload env m) = 1%nat.

Lemma samples_in_app a b : samples_in (a ++ b) = (samples_in a + samples_in b)%nat.
Proof. unfold samples_in, count_events. now rewrite filter_app, length_app. Qed.

Lemma pass_samples env m :
  samples_in (events loop env m)
  = if sampled env (globals m) then 1%nat else 0%nat.
Proof.
  rewrite (view_events _ _ (loop_view env m)), !samples_in_app.
  destruct (started env (globals m)), (sampled env (globals m)),
    (finished env (globals m));
    now rewrite ?samples_start, ?samples_stop, ?samples_payload.
Qed.

Lemma pass_one_sample env m : (samples_in (events loop env m) <= 1)%nat.
Proof. rewrite pass_samples. destruct (sampled env (globals m)); lia. Qed.

Lemma accepted_spaced ins : forall m,
  spaced (lastSampleTime (globals m)) (accepted ins m).
Proof.
  induction ins as [|env ins IH]; intro m; cbn [accepted].
  - exact I.
  - specialize (IH (next loop env m)).
    rewrite (view_time _ _ (loop_view env m)) in IH.
    rewrite pass_samples.
    destruct (sampled env (globals m)) eqn:S; cbn.
    + split; [|exact IH].
      unfold sampled, due in S. apply andb_prop in S. lia.
    + exact IH.
Qed.

(** A gap measured with the wrapping subtraction is never more than the
    time that really went by: if the counter reads [uint32 T] at true time
    [T], two readings found [k] apart are at least [k] apart in time. *)
Lemma uint32_gap_is_elapsed (T1 T2 k : Z) :
  T1 <= T2 -> k <= uint32 (uint32 T2 - uint32 T1) -> k <= T2 - T1.
Proof.
  unfold uint32. intros Hle Hk.
  rewrite <- Zminus_mod in Hk.
  pose proof (Z.mod_le (T2 - T1) (2 ^ 32)). lia.
Qed.

(** On a monotonic clock read modulo 2^32, accepted samples are at least
    [sampleInterval] apart in true time. *)
Lemma accepted_apart Ts : forall ins m T0,
  StronglySorted Z.le (T0 :: Ts) ->
  map nowUs ins = map uint32 Ts ->
  lastSampleTime (globals m) = uint32 T0 ->
  apart T0 (accepted_at Ts ins m).
Proof.
  induction Ts as [|T Ts IH]; intros ins m T0 Hs Hr Hl.
  - exact I.
  - destruct ins as [|env rest]; [discriminate Hr|].
    cbn [map] in Hr. injection Hr as Hnow Hr.
    cbn [accepted_at]. rewrite pass_samples.
    apply StronglySorted_inv in Hs as [Hs Hall].
    pose proof (view_time _ _ (loop_view env m)) as Ht.
    destruct (sampled env (globals m)) eqn:S; cbn.
    + split.
      * apply uint32_gap_is_elapsed.
        -- now apply Forall_inv in Hall.
        -- unfold sampled, due in S. apply andb_prop in S as [_ S].
           rewrite Hnow, Hl in S. lia.
      * apply IH; [exact Hs | exact Hr | now rewrite Ht].
    + apply IH; [|exact Hr | now rewrite Ht].
      apply StronglySorted_inv in Hs as [Hs _].
      constructor; [exact Hs | now apply Forall_inv_tail in Hall].
Qed.

Lemma last_cons_default (x d : Z) (l : list Z) :
  List.last (x :: l) d = List.last l x.
Proof.
  revert x d. induction l as [|y l IH]; intros x d; [reflexivity|].
  change (List.last (x :: y :: l) d) with (List.last (y :: l) d).
  now rewrite (IH y d), (IH y x).
Qed.

Lemma last_default_le (d1 d2 : Z) (l : list Z) :
  d1 <= d2 -> List.last l d1 <= List.last l d2.
Proof.
  intro H. destruct l as [|x l]; [exact H|].
  rewrite !last_cons_default. lia.
Qed.

(** On such a clock no run takes its samples faster than one every
    [sampleInterval]: the samples of a run, times the interval, fit in the
    time from the last sample before the run to the last pass of the
    run. *)
Lemma samples_rate Ts : forall ins m T0,
  StronglySorted Z.le (T0 :: Ts) ->
  map nowUs ins = map uint32 Ts ->
  lastSampleTime (globals m) = uint32 T0 ->
  sampleInterval * Z.of_nat (samples_in (trace loop ins m))
  <= List.last Ts T0 - T0.
Proof.
  induction Ts as [|T Ts IH]; intros ins m T0 Hs Hr Hl.
  - destruct ins; [|discriminate Hr]. cbn. lia.
  - destruct ins as [|env rest]; [discriminate Hr|].
    cbn [map] in Hr. injection Hr as Hnow Hr.
    rewrite trace_cons, samples_in_app, pass_samples, last_cons_default.
    apply StronglySorted_inv in Hs as [Hs Hall].
    pose proof (view_time _ _ (loop_view env m)) as Ht.
    assert (Hle : T0 <= T) by now apply Forall_inv in Hall.
    destruct (sampled env (globals m)) eqn:S.
    + assert (Hgap : sampleInterval <= T - T0).
      { apply uint32_gap_is_elapsed; [exact Hle|].
        unfold sampled, due in S. apply andb_prop in S as [_ S].
        rewrite Hnow, Hl in S. lia. }
      assert (Hrest := IH rest (next loop env m) T Hs Hr).
      rewrite Ht in Hrest. specialize (Hrest Hnow).
      rewrite Nat2Z.inj_add. change (Z.of_nat 1) with 1. lia.
    + assert (Hs0 : StronglySorted Z.le (T0 :: Ts)).
      { apply StronglySorted_inv in Hs as [Hs _].
        constructor; [exact Hs | now apply Forall_inv_tail in Hall]. }
      assert (Hrest := IH rest (next loop env m) T0 Hs0 Hr).
      rewrite Ht in Hrest. specialize (Hrest Hl).
      pose proof (last_default_le T0 T Ts Hle).
      change (Z.of_nat (0 + samples_in (trace loop rest (next loop env m))))
        with (Z.of_nat (samples_in (trace loop rest (next loop env m)))).
      lia.
Qed.

(** A session in progress whose every pass is due runs to its end in
    exactly the passes it still needs. *)
Lemma session_completes ins : forall m,
  session_ok (globals m) ->
  recording (globals m) = true ->
  all_due (lastSampleTime (globals m)) ins = true ->
  Z.of_nat (length ins) = maxSamples - sampleCount (globals m) ->
  recording (globals (final loop ins m)) = false /\
  sampleCount (globals (final loop ins m)) = maxSamples /\
  exists body,
    trace loop ins m = body ++ stop_events /\
    samples_in body = length ins.
Proof.
  induction ins as [|env ins IH]; intros m Hok R Hdue Hlen.
  - specialize (Hok R). cbn in Hlen. lia.
  - pose proof (Hok R) as Hc.
    cbn [all_due] in Hdue. apply andb_prop in Hdue as [Hd Hdue].
    cbn [length] in Hlen. rewrite Nat2Z.inj_succ in Hlen.
    rewrite final_cons, trace_cons.
    destruct (loop_view env m) as [Hr Hcnt Ht He].
    assert (S : sampled env (globals m) = true).
    { unfold sampled, active, due. now rewrite R, Hd. }
    assert (St : started env (globals m) = false).
    { unfold started. rewrite R. apply andb_false_r. }
    assert (Cn : counted env (globals m) = sampleCount (globals m) + 1).
    { unfold counted. rewrite St, S. apply incr_small, Hc. }
    unfold finished in Hr, He. unfold active in Hr.
    rewrite S, Cn, R in Hr. rewrite S, St, Cn in He.
    rewrite S in Ht. rewrite Cn in Hcnt.
    cbn [app andb orb] in Hr, He.
    destruct (sampleCount (globals m) + 1 >=? maxSamples) eqn:E.
    + destruct ins as [|e2 ins];
        [|cbn [length] in Hlen; rewrite Nat2Z.inj_succ in Hlen; lia].
      unfold final, trace. cbn [run fst snd].
      rewrite Hr, Hcnt, He. repeat split; [lia|].
      exists (payload env m). rewrite app_nil_r.
      split; [reflexivity | apply samples_payload].
    + destruct (IH (next loop env m)) as (Hr' & Hc' & body & Htr & Hn).
      * now apply pass_session_ok.
      * exact Hr.
      * now rewrite Ht.
      * rewrite Hcnt. lia.
      * repeat split; [exact Hr' | exact Hc' |].
        exists (payload env m ++ body). rewrite He, Htr.
        rewrite app_nil_r, app_assoc. split; [reflexivity|].
        rewrite samples_in_app, samples_payload, Hn. reflexivity.
Qed.

(** A whole session: the pass that starts it and, every pass being due,
    the passes that follow until [maxSamples] samples are out. *)
Lemma session_runs env rest m :
  recording (globals m) = false ->
  trigger env (globals m) = true ->
  all_due (lastSampleTime (globals m)) (env :: rest) = true ->
  Z.of_nat (length (env :: rest)) = maxSamples ->
  recording (globals (final loop (env :: rest) m)) = false /\
  exists body,
    trace loop (env :: rest) m = start_events ++ body ++ stop_events /\
    Z.of_nat (samples_in body) = maxSamples.
Proof.
  intros R T Hdue Hlen.
  cbn [all_due] in Hdue. apply andb_prop in Hdue as [Hd Hdue].
  cbn [length] in Hlen. rewrite Nat2Z.inj_succ in Hlen.
  rewrite final_cons, trace_cons.
  destruct (loop_view env m) as [Hr Hcnt Ht He].
  assert (St : started env (globals m) = true).
  { unfold started. now rewrite R, T. }
  assert (S : sampled env (globals m) = true).
  { unfold sampled, active, due. now rewrite St, Hd, orb_true_r. }
  assert (Cn : counted env (globals m) = 1).
  { unfold counted. rewrite St, S. apply incr_small. lia. }
  unfold finished in Hr, He. unfold active in Hr.
  rewrite S, Cn, St, orb_true_r in Hr. rewrite S, St, Cn in He.
  rewrite S in Ht. rewrite Cn in Hcnt.
  cbn [app andb orb] in Hr, He.
  destruct (1 >=? maxSamples) eqn:E.
  - destruct rest as [|e2 rest];
      [|cbn [length] in Hlen; rewrite Nat2Z.inj_succ in Hlen; lia].
    unfold final, trace. cbn [run fst snd].
    rewrite Hr, He. split; [reflexivity|].
    exists (payload env m). rewrite app_nil_r.
    split; [reflexivity|]. rewrite samples_payload. cbn in Hlen. lia.
  - destruct (session_completes rest (next loop env m))
      as (Hr' & _ & body & Htr & Hn).
    + unfold session_ok. rewrite Hcnt. lia.
    + exact Hr.
    + now rewrite Ht.
    + rewrite Hcnt. lia.
    + split; [exact Hr'|].
      exists (payload env m ++ body). rewrite He, Htr.
      rewrite app_nil_r, <- !app_assoc. split; [reflexivity|].
      rewrite samples_in_app, samples_payload, Hn. lia.
Qed.

End Samples.

(** *** Sessions do not overlap *)

Section Counting.
(** [begins] marks the one event of the start block that counts a session
    as begun, [ends] the one of the stop block that counts it as ended. *)
Variables begins ends : Event -> bool.
Hypothesis begins_start : count_events begins start_events = 1%nat.
Hypothesis begins_stop : count_events begins stop_events = 0%nat.
Hypothesis begins_payload :
  forall env m, count_events begins (payload env m) = 0%nat.
Hypothesis ends_start : count_events ends start_events = 0%nat.
Hypothesis ends_stop : count_events ends stop_events = 1%nat.
Hypothesis ends_payload :
  forall env m, count_events ends (payload env m) = 0%nat.

Lemma count_events_app p a b :
  count_events p (a ++ b) = (count_events p a + count_events p b)%nat.
Proof. unfold count_events. now rewrite filter_app, length_app. Qed.

Lemma sessions_begin_after_end ph tr :
  sessions ph tr ->
  (count_events begins tr
   <= count_events ends tr + match ph with None => 1 | Some _ => 0 end)%nat.
Proof.
  induction 1 as [ph | tr _ IH | c env m tr _ _ _ IH | c env m tr _ _ IH];
    rewrite ?count_events_app, ?begins_start, ?begins_stop, ?begins_payload,
      ?ends_start, ?ends_stop, ?ends_payload.
  - cbn. lia.
  - lia.
  - lia.
  - lia.
Qed.

(** A run that begins idle and ends in a session has gone through a start
    block. *)
Lemma started_when_recording ins : forall m,
  recording (globals m) = false ->
  recording (globals (final loop ins m)) = true ->
  (1 <= count_events begins (trace loop ins m))%nat.
Proof.
  induction ins as [|env ins IH]; intros m R Rf.
  - unfold final in Rf. cbn in Rf. congruence.
  - rewrite final_cons in Rf. rewrite trace_cons, count_events_app.
    destruct (recording (globals (next loop env m))) eqn:Rn.
    + destruct (loop_view env m) as [Hr _ _ He].
      rewrite Rn in Hr. symmetry in Hr. apply andb_prop in Hr as [Ha _].
      unfold active in Ha. rewrite R in Ha. cbn in Ha.
      rewrite He, Ha, count_events_app, begins_start. lia.
    + specialize (IH _ Rn Rf). lia.
Qed.

End Counting.

(** *** What holds of every block holds of every trace *)

Lemma sessions_Forall (P : Event -> Prop) ph tr :
  Forall P start_events -> Forall P stop_events ->
  (forall env m, Forall P (payload env m)) ->
  sessions ph tr -> Forall P tr.
Proof.
  intros Hs Ht Hp.
  induction 1 as [ph | tr _ IH | c env m tr _ _ _ IH | c env m tr _ _ IH].
  - constructor.
  - apply Forall_app. now split.
  - apply Forall_app. now split.
  - apply Forall_app. split; [apply Hp|]. apply Forall_app. now split.
Qed.

(** *** Samples lie between the markers *)

Section Brackets.
Hypothesis bracket_start : forall o tr,
  samples_bracketed is_start is_stop o (start_events ++ tr)
  = samples_bracketed is_start is_stop true tr.
Hypothesis bracket_payload : forall env m tr,
  samples_bracketed is_start is_stop true (payload env m ++ tr)
  = samples_bracketed is_start is_stop true tr.
Hypothesis bracket_stop : forall tr,
  samples_bracketed is_start is_stop true (stop_events ++ tr)
  = samples_bracketed is_start is_stop false tr.

Lemma sessions_bracketed ph tr :
  sessions ph tr ->
  samples_bracketed is_start is_stop
                    (match ph with Some _ => true | None => false end) tr
  = true.
Proof.
  induction 1 as [ph | tr _ IH | c env m tr _ _ _ IH | c env m tr _ _ IH].
  - reflexivity.
  - now rewrite bracket_start.
  - now rewrite bracket_payload.
  - now rewrite bracket_payload, bracket_stop.
Qed.

End Brackets.

End Recorder.

(** ** The three sketches are recorders *)

(** *** Each [loop()] computes its closed form *)

(** Unfolding the monad, a sketch and its closed form down to the tests
    the pass evaluates. *)
Ltac norm_sketch :=
  cbv beta iota zeta delta
    [bind gets modify emit ret digitalRead digitalWrite millis micros
     analogRead Serial_write Serial_println delay when for_ next events
     fst snd globals latch button nowMs nowUs adc negb andb orb Bool.eqb
     Level_eqb app finished counted sampled active started due].

Ltac norm_uno :=
  cbv beta iota zeta delta
    [Uno.loop Uno.lastSampleTime Uno.sampleCount Uno.recording
     Uno.lastButtonPressed Uno.lastButtonChangeMs Uno.set_recording
     Uno.set_sampleCount Uno.set_lastSampleTime Uno.set_lastButtonPressed
     Uno.set_lastButtonChangeMs Uno.stablePressed Uno.changeMs
     Uno.pressedNow Uno.incr Uno.payload uno_after uno_events uno_started
     uno_active uno_sampled uno_counted uno_finished];
  norm_sketch.

Ltac norm_simple :=
  cbv beta iota zeta delta
    [Simple.loop Simple.lastSampleTime Simple.sampleCount Simple.recording
     Simple.set_recording Simple.set_sampleCount Simple.set_lastSampleTime
     Simple.pressed Simple.incr Simple.payload simple_after simple_events
     simple_started simple_active simple_sampled simple_counted
     simple_finished];
  norm_sketch.

Ltac norm_esp32 :=
  cbv beta iota zeta delta
    [Esp.loop Esp.lastSampleTime Esp.sampleCount Esp.recording
     Esp.set_recording Esp.set_sampleCount Esp.set_lastSampleTime
     Esp.pressed Esp.incr Esp.payload Esp.led_at_sample Esp.count_at_sample
     esp32_after esp32_events esp32_started esp32_active esp32_sampled
     esp32_counted esp32_finished esp32_blinks];
  norm_sketch.

(** Case split on the next comparison that the pass evaluates; a case that
    contradicts an earlier decision on the same comparison is dismissed. *)
Ltac split_test :=
  match goal with
  | |- context [Z.rem ?x ?y =? ?z] => destruct (Z.rem x y =? z) eqn:?
  | |- context [?x >? ?y] => destruct (x >? y) eqn:?
  | |- context [?x >=? ?y] => destruct (x >=? y) eqn:?
  end;
  try congruence.

Lemma set_pin_same l pin v : set_pin l pin v pin = v.
Proof. unfold set_pin. now rewrite Z.eqb_refl. Qed.

Lemma uno_loop_eq env m :
  Uno.loop env m = (tt, uno_after env m, uno_events env m).
Proof.
  destruct m as [[lst cnt rec lbp lbc] lat], env as [b ms us a].
  norm_uno. rewrite Z.eqb_refl.
  destruct b, lbp, rec; norm_uno; repeat (split_test; norm_uno);
    reflexivity.
Qed.

Lemma simple_loop_eq env m :
  Simple.loop env m = (tt, simple_after env m, simple_events env m).
Proof.
  destruct m as [[lst cnt rec] lat], env as [b ms us a].
  norm_simple. rewrite Z.eqb_refl.
  destruct b, rec; norm_simple; repeat (split_test; norm_simple);
    reflexivity.
Qed.

Lemma esp32_loop_eq env m :
  Esp.loop env m = (tt, esp32_after env m, esp32_events env m).
Proof.
  destruct m as [[lst cnt rec] lat], env as [b ms us a].
  norm_esp32. rewrite Z.eqb_refl.
  change (Esp.recordingLedPin =? Esp.buttonPin) with false.
  destruct b, rec; norm_esp32; repeat (split_test; norm_esp32);
    rewrite ?set_pin_same; reflexivity.
Qed.

Lemma uno_loop_view env m :
  pass_view Uno.loop Uno.recording Uno.sampleCount Uno.lastSampleTime
            Uno.maxSamples Uno.sampleInterval Uno.incr Uno.stablePressed
            Uno.start_events Uno.stop_events Uno.payload env m.
Proof.
  constructor; unfold next, events; rewrite uno_loop_eq; reflexivity.
Qed.

Lemma simple_loop_view env m :
  pass_view Simple.loop Simple.recording Simple.sampleCount
            Simple.lastSampleTime Simple.maxSamples Simple.sampleInterval
            Simple.incr Simple.pressed Simple.start_events
            Simple.stop_events Simple.payload env m.
Proof.
  constructor; unfold next, events; rewrite simple_loop_eq; reflexivity.
Qed.

Lemma esp32_loop_view env m :
  pass_view Esp.loop Esp.recording Esp.sampleCount Esp.lastSampleTime
            Esp.maxSamples Esp.sampleInterval Esp.incr Esp.pressed
            Esp.start_events Esp.stop_events Esp.payload env m.
Proof.
  constructor; unfold next, events; rewrite esp32_loop_eq; reflexivity.
Qed.

(** *** Constants and counters *)

Lemma uno_constants :
  Uno.sampleInterval = 125 /\ Uno.maxSamples = 120000 /\
  Uno.maxSamples = Uno.sampleRate * 15.
Proof. repeat split; reflexivity. Qed.

Lemma simple_constants :
  Simple.sampleInterval = 125 /\ Simple.maxSamples = 120000 /\
  Simple.maxSamples = Simple.sampleRate * 15.
Proof. repeat split; reflexivity. Qed.

Lemma esp32_constants :
  Esp.sampleInterval = 62 /\ Esp.maxSamples = 240000 /\
  Esp.maxSamples = Esp.sampleRate * 15.
Proof. repeat split; reflexivity. Qed.

Lemma uint32_small z : 0 <= z < 2 ^ 32 -> uint32 z = z.
Proof. intro H. unfold uint32. now apply Z.mod_small. Qed.

Lemma int32_small z : - 2 ^ 31 <= z < 2 ^ 31 -> int32 z = z.
Proof. intro H. unfold int32. rewrite Z.mod_small; lia. Qed.

Lemma int16_small z : - 2 ^ 15 <= z < 2 ^ 15 -> int16 z = z.
Proof. intro H. unfold int16. rewrite Z.mod_small; lia. Qed.

Lemma uno_maxSamples_pos : 0 < Uno.maxSamples.
Proof. reflexivity. Qed.

Lemma simple_maxSamples_pos : 0 < Simple.maxSamples.
Proof. reflexivity. Qed.

Lemma esp32_maxSamples_pos : 0 < Esp.maxSamples.
Proof. reflexivity. Qed.

Lemma uno_incr_small c : 0 <= c < Uno.maxSamples -> Uno.incr c = c + 1.
Proof.
  destruct uno_constants as (_ & -> & _). intro H.
  apply uint32_small. lia.
Qed.

Lemma simple_incr_small c :
  0 <= c < Simple.maxSamples -> Simple.incr c = c + 1.
Proof.
  destruct simple_constants as (_ & -> & _). intro H.
  apply uint32_small. lia.
Qed.

Lemma esp32_incr_small c : 0 <= c < Esp.maxSamples -> Esp.incr c = c + 1.
Proof.
  destruct esp32_constants as (_ & -> & _). intro H.
  apply int32_small. lia.
Qed.

(** The machines at power-on are idle. *)
Lemma uno_power_on_ok :
  session_ok Uno.recording Uno.sampleCount Uno.maxSamples
             (globals Uno.power_on).
Proof. intro H. discriminate H. Qed.

Lemma simple_power_on_ok :
  session_ok Simple.recording Simple.sampleCount Simple.maxSamples
             (globals Simple.power_on).
Proof. intro H. discriminate H. Qed.

Lemma esp32_power_on_ok :
  session_ok Esp.recording Esp.sampleCount Esp.maxSamples
             (globals Esp.power_on).
Proof. intro H. discriminate H. Qed.

(** ** The PCM converter *)

Lemma shift_scale a n : 0 <= n -> Z.shiftl a n = a * 2 ^ n.
Proof. intro H. now apply Z.shiftl_mul_pow2. Qed.

Lemma uno_pcm_exact r :
  0 <= r <= 1023 -> Uno.pcm_of_adc r = (r - 512) * 64.
Proof.
  intro H. unfold Uno.pcm_of_adc.
  rewrite (int16_small (r - 512)) by lia.
  rewrite shift_scale by lia. change (2 ^ 6) with 64.
  apply int16_small. lia.
Qed.

Lemma esp32_pcm_exact r :
  0 <= r <= 4095 -> Esp.pcm_of_adc r = (r - 2048) * 16.
Proof.
  intro H. unfold Esp.pcm_of_adc.
  rewrite (int16_small (r - 2048)) by lia.
  rewrite shift_scale by lia. change (2 ^ 4) with 16.
  apply int16_small. lia.
Qed.

(** C1.  For every raw reading [r] of the ADC's range, the converter
    returns [(r - midpoint) * 2^(16 - resolution)], a value that fits a
    signed 16-bit integer: midpoint 512 and shift 6 in the two 10-bit Uno
    sketches, midpoint 2048 and shift 4 in the 12-bit ESP32 sketch. *)
Theorem pcm_converter_scaling (r : Z) :
  (0 <= r <= 2 ^ 10 - 1 ->
   Uno.pcm_of_adc r = (r - 512) * 2 ^ (16 - 10) /\
   Simple.pcm_of_adc r = (r - 512) * 2 ^ (16 - 10) /\
   - 2 ^ 15 <= Uno.pcm_of_adc r <= 2 ^ 15 - 1) /\
  (0 <= r <= 2 ^ 12 - 1 ->
   Esp.pcm_of_adc r = (r - 2048) * 2 ^ (16 - 12) /\
   - 2 ^ 15 <= Esp.pcm_of_adc r <= 2 ^ 15 - 1).
Proof.
  split; intro H.
  - assert (E : Uno.pcm_of_adc r = (r - 512) * 64)
      by (apply uno_pcm_exact; lia).
    change (Simple.pcm_of_adc r) with (Uno.pcm_of_adc r).
    rewrite E. change (2 ^ (16 - 10)) with 64. lia.
  - assert (E : Esp.pcm_of_adc r = (r - 2048) * 16)
      by (apply esp32_pcm_exact; lia).
    rewrite E. change (2 ^ (16 - 12)) with 16. lia.
Qed.

Lemma pcm_converter_scaling_witness :
  (Uno.pcm_of_adc 1023 = (1023 - 512) * 2 ^ (16 - 10) /\
   Simple.pcm_of_adc 1023 = (1023 - 512) * 2 ^ (16 - 10) /\
   - 2 ^ 15 <= Uno.pcm_of_adc 1023 <= 2 ^ 15 - 1) /\
  (Esp.pcm_of_adc 1023 = (1023 - 2048) * 2 ^ (16 - 12) /\
   - 2 ^ 15 <= Esp.pcm_of_adc 1023 <= 2 ^ 15 - 1).
Proof.
  split.
  - apply (proj1 (pcm_converter_scaling 1023)). lia.
  - apply (proj2 (pcm_converter_scaling 1023)). lia.
Defined.

(** ** The round-trip scenario *)

(** C2.  For the ADC readings 512, 512, 1023, 0 at 10-bit resolution the
    sketch sends the bytes 00 00, 00 00, C0 7F, 00 80: the converter
    followed by the little-endian byte view gives them, and so does a run
    of either Uno sketch from power-on (the first sketch sends them after
    its 25 "STRT" markers, the second sends nothing else). *)
Theorem round_trip_bytes :
  flat_map (fun r => bytes_of_int16 (Uno.pcm_of_adc r)) [512; 512; 1023; 0]
  = [0x00; 0x00; 0x00; 0x00; 0xC0; 0x7F; 0x00; 0x80] /\
  serial_bytes (samples_of (trace Uno.loop round_trip_uno Uno.power_on))
  = [0x00; 0x00; 0x00; 0x00; 0xC0; 0x7F; 0x00; 0x80] /\
  serial_bytes (trace Uno.loop round_trip_uno Uno.power_on)
  = concat (repeat (ascii_bytes "STRT") 25)
    ++ [0x00; 0x00; 0x00; 0x00; 0xC0; 0x7F; 0x00; 0x80] /\
  serial_bytes (trace Simple.loop round_trip_simple Simple.power_on)
  = [0x00; 0x00; 0x00; 0x00; 0xC0; 0x7F; 0x00; 0x80].
Proof. split; [|split; [|split]]; vm_compute; reflexivity. Qed.

(** ** The session invariant *)

(** Every machine reached from power-on satisfies the session invariant. *)
Lemma uno_reachable_ok ins :
  session_ok Uno.recording Uno.sampleCount Uno.maxSamples
             (globals (final Uno.loop ins Uno.power_on)).
Proof.
  eapply run_session_ok;
    [exact uno_maxSamples_pos | exact uno_incr_small | exact uno_loop_view
    | exact uno_power_on_ok].
Qed.

Lemma simple_reachable_ok ins :
  session_ok Simple.recording Simple.sampleCount Simple.maxSamples
             (globals (final Simple.loop ins Simple.power_on)).
Proof.
  eapply run_session_ok;
    [exact simple_maxSamples_pos | exact simple_incr_small
    | exact simple_loop_view | exact simple_power_on_ok].
Qed.

Lemma esp32_reachable_ok ins :
  session_ok Esp.recording Esp.sampleCount Esp.maxSamples
             (globals (final Esp.loop ins Esp.power_on)).
Proof.
  eapply run_session_ok;
    [exact esp32_maxSamples_pos | exact esp32_incr_small
    | exact esp32_loop_view | exact esp32_power_on_ok].
Qed.

(** C4.  In every state reached from power-on at the boundary of a pass,
    [recording] implies [sampleCount < maxSamples]; and from such a state
    the next pass clears [recording] exactly when it brings [sampleCount]
    to [maxSamples].  This holds in the three sketches. *)
Theorem session_bounded_by_maxSamples (ins : list Inputs) (env : Inputs) :
  (let m := final Uno.loop ins Uno.power_on in
   Uno.recording (globals m) = true ->
   0 <= Uno.sampleCount (globals m) < Uno.maxSamples /\
   (Uno.recording (globals (next Uno.loop env m)) = false <->
    Uno.sampleCount (globals (next Uno.loop env m)) = Uno.maxSamples)) /\
  (let m := final Simple.loop ins Simple.power_on in
   Simple.recording (globals m) = true ->
   0 <= Simple.sampleCount (globals m) < Simple.maxSamples /\
   (Simple.recording (globals (next Simple.loop env m)) = false <->
    Simple.sampleCount (globals (next Simple.loop env m))
    = Simple.maxSamples)) /\
  (let m := final Esp.loop ins Esp.power_on in
   Esp.recording (globals m) = true ->
   0 <= Esp.sampleCount (globals m) < Esp.maxSamples /\
   (Esp.recording (globals (next Esp.loop env m)) = false <->
    Esp.sampleCount (globals (next Esp.loop env m)) = Esp.maxSamples)).
Proof.
  split; [|split]; intros m R; split.
  - apply (uno_reachable_ok ins R).
  - eapply pass_ends_iff;
      [exact uno_incr_small | exact uno_loop_view
      | apply uno_reachable_ok | exact R].
  - apply (simple_reachable_ok ins R).
  - eapply pass_ends_iff;
      [exact simple_incr_small | exact simple_loop_view
      | apply simple_reachable_ok | exact R].
  - apply (esp32_reachable_ok ins R).
  - eapply pass_ends_iff;
      [exact esp32_incr_small | exact esp32_loop_view
      | apply esp32_reachable_ok | exact R].
Qed.

(** ** The sampling scheduler *)

Lemma uno_samples_payload env m :
  samples_in is_sample (Uno.payload env m) = 1%nat.
Proof. reflexivity. Qed.

Lemma simple_samples_payload env m :
  samples_in is_sample (Simple.payload env m) = 1%nat.
Proof. reflexivity. Qed.

Lemma esp32_samples_payload env m :
  samples_in is_sample (Esp.payload env m) = 1%nat.
Proof.
  unfold Esp.payload.
  destruct (Z.rem _ _ =? 0); reflexivity.
Qed.

(** C5.  Whatever the clock readings are, wrapped or not, a pass takes at
    most one sample, and each accepted sample's [micros()] reading is at
    least [sampleInterval] (125 us at 8 kHz, 62 us at 16 kHz) after the
    previous accepted one, by the unsigned subtraction of the sketch.  When
    the readings are those of a monotonic clock taken modulo 2^32, accepted
    samples are at least [sampleInterval] apart in true time as well. *)
Theorem sampling_spaced_by_interval (ins : list Inputs) :
  ((forall m env,
      (samples_in is_sample (events Uno.loop env m) <= 1)%nat) /\
   (forall m,
      spaced Uno.sampleInterval (Uno.lastSampleTime (globals m))
             (accepted Uno.loop is_sample ins m)) /\
   (forall m Ts T0,
      StronglySorted Z.le (T0 :: Ts) ->
      map nowUs ins = map uint32 Ts ->
      Uno.lastSampleTime (globals m) = uint32 T0 ->
      apart Uno.sampleInterval T0 (accepted_at Uno.loop is_sample Ts ins m)) /\
   Uno.sampleInterval = 125) /\
  ((forall m env,
      (samples_in is_sample (events Simple.loop env m) <= 1)%nat) /\
   (forall m,
      spaced Simple.sampleInterval (Simple.lastSampleTime (globals m))
             (accepted Simple.loop is_sample ins m)) /\
   (forall m Ts T0,
      StronglySorted Z.le (T0 :: Ts) ->
      map nowUs ins = map uint32 Ts ->
      Simple.lastSampleTime (globals m) = uint32 T0 ->
      apart Simple.sampleInterval T0
            (accepted_at Simple.loop is_sample Ts ins m)) /\
   Simple.sampleInterval = 125) /\
  ((forall m env,
      (samples_in is_sample (events Esp.loop env m) <= 1)%nat) /\
   (forall m,
      spaced Esp.sampleInterval (Esp.lastSampleTime (globals m))
             (accepted Esp.loop is_sample ins m)) /\
   (forall m Ts T0,
      StronglySorted Z.le (T0 :: Ts) ->
      map nowUs ins = map uint32 Ts ->
      Esp.lastSampleTime (globals m) = uint32 T0 ->
      apart Esp.sampleInterval T0 (accepted_at Esp.loop is_sample Ts ins m)) /\
   Esp.sampleInterval = 62).
Proof.
  split; [|split]; (split; [|split; [|split]]); try reflexivity.
  - intros m env. eapply pass_one_sample;
      [exact uno_loop_view | reflexivity | reflexivity
      | exact uno_samples_payload].
  - intro m. eapply accepted_spaced;
      [exact uno_loop_view | reflexivity | reflexivity
      | exact uno_samples_payload].
  - intros m Ts T0. eapply accepted_apart;
      [exact uno_loop_view | reflexivity | reflexivity
      | exact uno_samples_payload].
  - intros m env. eapply pass_one_sample;
      [exact simple_loop_view | reflexivity | reflexivity
      | exact simple_samples_payload].
  - intro m. eapply accepted_spaced;
      [exact simple_loop_view | reflexivity | reflexivity
      | exact simple_samples_payload].
  - intros m Ts T0. eapply accepted_apart;
      [exact simple_loop_view | reflexivity | reflexivity
      | exact simple_samples_payload].
  - intros m env. eapply pass_one_sample;
      [exact esp32_loop_view | reflexivity | reflexivity
      | exact esp32_samples_payload].
  - intro m. eapply accepted_spaced;
      [exact esp32_loop_view | reflexivity | reflexivity
      | exact esp32_samples_payload].
  - intros m Ts T0. eapply accepted_apart;
      [exact esp32_loop_view | reflexivity | reflexivity
      | exact esp32_samples_payload].
Qed.

Lemma sampling_spaced_by_interval_witness :
  accepted_at Uno.loop is_sample wrap_times wrap_passes uno_before_wrap
  = [4294967326; 4294967496] /\
  apart Uno.sampleInterval 4294967096
        (accepted_at Uno.loop is_sample wrap_times wrap_passes
                     uno_before_wrap).
Proof.
  split; [vm_compute; reflexivity|].
  destruct (sampling_spaced_by_interval wrap_passes)
    as [(_ & _ & H & _) _].
  apply H.
  - unfold wrap_times. repeat constructor; lia.
  - vm_compute. reflexivity.
  - vm_compute. reflexivity.
Defined.

(** ** Sessions read back from the trace *)

Section ScanFacts.
Variable w : Event -> Z.
Hypothesis w_write : forall pin v, w (DigitalWrite pin v) = 0.
Hypothesis w_delay : forall ms, w (Delay ms) = 0.

Lemma uno_scan_start o tr :
  session_sums (is_marker "STRT") (is_marker "DONE") w o
               (Uno.start_events ++ tr)
  = session_sums (is_marker "STRT") (is_marker "DONE") w (Some 0) tr.
Proof.
  cbn. rewrite !w_delay. reflexivity.
Qed.

Lemma uno_scan_stop n tr :
  session_sums (is_marker "STRT") (is_marker "DONE") w (Some n)
               (Uno.stop_events ++ tr)
  = n :: session_sums (is_marker "STRT") (is_marker "DONE") w None tr.
Proof.
  cbn. rewrite w_write, Z.add_0_r. reflexivity.
Qed.

Lemma uno_scan_payload n env m tr :
  session_sums (is_marker "STRT") (is_marker "DONE") w (Some n)
               (Uno.payload env m ++ tr)
  = session_sums (is_marker "STRT") (is_marker "DONE") w
      (Some (n + w (SerialWrite (bytes_of_int16 (Uno.pcm_of_adc (adc env))))))
      tr.
Proof. reflexivity. Qed.

Lemma esp32_scan_start o tr :
  session_sums (is_line "START") (is_line "STOP") w o
               (Esp.start_events ++ tr)
  = session_sums (is_line "START") (is_line "STOP") w (Some 0) tr.
Proof.
  cbn. rewrite w_delay, w_write. reflexivity.
Qed.

Lemma esp32_scan_stop n tr :
  session_sums (is_line "START") (is_line "STOP") w (Some n)
               (Esp.stop_events ++ tr)
  = n :: session_sums (is_line "START") (is_line "STOP") w None tr.
Proof. reflexivity. Qed.

Lemma esp32_scan_payload n env m tr :
  session_sums (is_line "START") (is_line "STOP") w (Some n)
               (Esp.payload env m ++ tr)
  = session_sums (is_line "START") (is_line "STOP") w
      (Some (n + w (SerialWrite (bytes_of_int16 (Esp.pcm_of_adc (adc env))))))
      tr.
Proof.
  unfold Esp.payload.
  destruct (Z.rem _ _ =? 0); cbn; [|reflexivity].
  rewrite w_write, Z.add_0_r. reflexivity.
Qed.

Lemma simple_scan_start o tr :
  session_sums (is_write Simple.recordingLedPin HIGH)
               (is_write Simple.recordingLedPin LOW) w o
               (Simple.start_events ++ tr)
  = session_sums (is_write Simple.recordingLedPin HIGH)
                 (is_write Simple.recordingLedPin LOW) w (Some 0) tr.
Proof.
  cbn. rewrite w_delay. reflexivity.
Qed.

Lemma simple_scan_stop n tr :
  session_sums (is_write Simple.recordingLedPin HIGH)
               (is_write Simple.recordingLedPin LOW) w (Some n)
               (Simple.stop_events ++ tr)
  = n :: session_sums (is_write Simple.recordingLedPin HIGH)
                      (is_write Simple.recordingLedPin LOW) w None tr.
Proof. reflexivity. Qed.

Lemma simple_scan_payload n env m tr :
  session_sums (is_write Simple.recordingLedPin HIGH)
               (is_write Simple.recordingLedPin LOW) w (Some n)
               (Simple.payload env m ++ tr)
  = session_sums (is_write Simple.recordingLedPin HIGH)
                 (is_write Simple.recordingLedPin LOW) w
      (Some (n + w (SerialWrite
                      (bytes_of_int16 (Simple.pcm_of_adc (adc env))))))
      tr.
Proof. reflexivity. Qed.

End ScanFacts.

Section SessionSums.
Variable w : Event -> Z.
Variable k : Z.
Hypothesis w_write : forall pin v, w (DigitalWrite pin v) = 0.
Hypothesis w_delay : forall ms, w (Delay ms) = 0.
Hypothesis w_sample : forall v, w (SerialWrite (bytes_of_int16 v)) = k.

Lemma uno_session_sums ins :
  Forall (fun n => n = k * Uno.maxSamples)
         (session_sums (is_marker "STRT") (is_marker "DONE") w None
                       (trace Uno.loop ins Uno.power_on)).
Proof.
  eapply run_sums;
    [ exact uno_maxSamples_pos | exact uno_incr_small | exact uno_loop_view
    | intros; now apply uno_scan_start
    | intros; rewrite uno_scan_payload, w_sample; reflexivity
    | intros; now apply uno_scan_stop
    | exact uno_power_on_ok | reflexivity ].
Qed.

Lemma esp32_session_sums ins :
  Forall (fun n => n = k * Esp.maxSamples)
         (session_sums (is_line "START") (is_line "STOP") w None
                       (trace Esp.loop ins Esp.power_on)).
Proof.
  eapply run_sums;
    [ exact esp32_maxSamples_pos | exact esp32_incr_small
    | exact esp32_loop_view
    | intros; now apply esp32_scan_start
    | intros; rewrite esp32_scan_payload, w_sample by assumption; reflexivity
    | intros; now apply esp32_scan_stop
    | exact esp32_power_on_ok | reflexivity ].
Qed.

Lemma simple_session_sums ins :
  Forall (fun n => n = k * Simple.maxSamples)
         (session_sums (is_write Simple.recordingLedPin HIGH)
                       (is_write Simple.recordingLedPin LOW) w None
                       (trace Simple.loop ins Simple.power_on)).
Proof.
  eapply run_sums;
    [ exact simple_maxSamples_pos | exact simple_incr_small
    | exact simple_loop_view
    | intros; now apply simple_scan_start
    | intros; rewrite simple_scan_payload, w_sample; reflexivity
    | intros; now apply simple_scan_stop
    | exact simple_power_on_ok | reflexivity ].
Qed.

End SessionSums.



(** ** Markers around the samples *)

Lemma uno_trace_sessions ins :
  sessions Uno.maxSamples Uno.start_events Uno.stop_events Uno.payload
           None (trace Uno.loop ins Uno.power_on).
Proof.
  change None
    with (phase Uno.recording Uno.sampleCount (globals Uno.power_on)).
  eapply run_sessions;
    [ exact uno_maxSamples_pos | exact uno_incr_small | exact uno_loop_view
    | exact uno_power_on_ok ].
Qed.

Lemma simple_trace_sessions ins :
  sessions Simple.maxSamples Simple.start_events Simple.stop_events
           Simple.payload None (trace Simple.loop ins Simple.power_on).
Proof.
  change None
    with (phase Simple.recording Simple.sampleCount
                (globals Simple.power_on)).
  eapply run_sessions;
    [ exact simple_maxSamples_pos | exact simple_incr_small
    | exact simple_loop_view | exact simple_power_on_ok ].
Qed.

Lemma esp32_trace_sessions ins :
  sessions Esp.maxSamples Esp.start_events Esp.stop_events Esp.payload
           None (trace Esp.loop ins Esp.power_on).
Proof.
  change None
    with (phase Esp.recording Esp.sampleCount (globals Esp.power_on)).
  eapply run_sessions;
    [ exact esp32_maxSamples_pos | exact esp32_incr_small
    | exact esp32_loop_view | exact esp32_power_on_ok ].
Qed.

Lemma uno_trace_bracketed ins :
  samples_bracketed start_marker stop_marker false
                    (trace Uno.loop ins Uno.power_on) = true.
Proof.
  refine (sessions_bracketed Uno.maxSamples Uno.start_events
            Uno.stop_events Uno.payload start_marker stop_marker
            _ _ _ None _ (uno_trace_sessions ins)); reflexivity.
Qed.

Lemma esp32_trace_bracketed ins :
  samples_bracketed start_marker stop_marker false
                    (trace Esp.loop ins Esp.power_on) = true.
Proof.
  refine (sessions_bracketed Esp.maxSamples Esp.start_events
            Esp.stop_events Esp.payload start_marker stop_marker
            _ _ _ None _ (esp32_trace_sessions ins)); try reflexivity.
  intros env m tr. unfold Esp.payload.
  destruct (Z.rem _ _ =? 0); reflexivity.
Qed.

Lemma simple_trace_unmarked ins :
  Forall (fun e => start_marker e = false /\ stop_marker e = false)
         (trace Simple.loop ins Simple.power_on).
Proof.
  eapply sessions_Forall; [| | | apply simple_trace_sessions].
  - repeat constructor.
  - repeat constructor.
  - intros env m. repeat constructor.
Qed.

(** C6, as stated, fails in the second Uno sketch: its first sample goes
    out with no marker before it. *)
Lemma simple_sample_without_marker :
  trace Simple.loop one_pass Simple.power_on
  = [DigitalWrite 8 HIGH; Delay 200; SerialWrite [0; 0]] /\
  samples_bracketed start_marker stop_marker false
                    (trace Simple.loop one_pass Simple.power_on) = false.
Proof. split; vm_compute; reflexivity. Qed.

(** C6, amended.  In the first Uno sketch and in the ESP32 sketch every
    trace from power-on is a sequence of sessions, each made of the start
    block (LED HIGH, 25 times "STRT" then 2 ms, and 20 ms more; or the line
    "START", LED HIGH and 200 ms), then the samples, then the stop block
    (LED LOW and 10 times "DONE" then 2 ms; or the line "STOP" and LED
    LOW), so every sample write lies between a start marker and the next
    stop marker.  The second Uno sketch never writes a marker. *)
Theorem markers_delimit_sessions (ins : list Inputs) :
  (sessions Uno.maxSamples Uno.start_events Uno.stop_events Uno.payload
            None (trace Uno.loop ins Uno.power_on) /\
   samples_bracketed start_marker stop_marker false
                     (trace Uno.loop ins Uno.power_on) = true /\
   Uno.start_events
   = DigitalWrite Uno.recordingLedPin HIGH
     :: concat (repeat [SerialWrite (ascii_bytes "STRT"); Delay 2] 25)
     ++ [Delay 20] /\
   Uno.stop_events
   = DigitalWrite Uno.recordingLedPin LOW
     :: concat (repeat [SerialWrite (ascii_bytes "DONE"); Delay 2] 10)) /\
  (sessions Esp.maxSamples Esp.start_events Esp.stop_events Esp.payload
            None (trace Esp.loop ins Esp.power_on) /\
   samples_bracketed start_marker stop_marker false
                     (trace Esp.loop ins Esp.power_on) = true /\
   Esp.start_events
   = [SerialPrintln "START"; DigitalWrite Esp.recordingLedPin HIGH;
      Delay 200] /\
   Esp.stop_events
   = [SerialPrintln "STOP"; DigitalWrite Esp.recordingLedPin LOW]) /\
  Forall (fun e => start_marker e = false /\ stop_marker e = false)
         (trace Simple.loop ins Simple.power_on).
Proof.
  split; [|split].
  - repeat split; [apply uno_trace_sessions | apply uno_trace_bracketed].
  - repeat split; [apply esp32_trace_sessions | apply esp32_trace_bracketed].
  - apply simple_trace_unmarked.
Qed.

(** ** A trigger during a session *)

Lemma uno_trigger_ignored b ms env m :
  Uno.recording (globals m) = true ->
  let env' := mkInputs b ms (nowUs env) (adc env) in
  events Uno.loop env' m = events Uno.loop env m /\
  Uno.sampleCount (globals (next Uno.loop env' m))
  = Uno.sampleCount (globals (next Uno.loop env m)) /\
  Uno.recording (globals (next Uno.loop env' m))
  = Uno.recording (globals (next Uno.loop env m)) /\
  Uno.lastSampleTime (globals (next Uno.loop env' m))
  = Uno.lastSampleTime (globals (next Uno.loop env m)) /\
  latch (next Uno.loop env' m) = latch (next Uno.loop env m) /\
  Forall (fun e => start_marker e = false /\
                   is_write Uno.recordingLedPin HIGH e = false)
         (events Uno.loop env m).
Proof.
  intros R env'. unfold next, events. rewrite !uno_loop_eq. cbn [fst snd].
  unfold uno_after, uno_events, uno_finished, uno_counted, uno_sampled,
    uno_active, uno_started.
  cbn [globals latch Uno.sampleCount Uno.recording Uno.lastSampleTime].
  destruct (recording_view Uno.recording Uno.sampleCount Uno.lastSampleTime
              Uno.maxSamples Uno.sampleInterval Uno.incr Uno.stablePressed
              env (globals m) R) as (-> & -> & -> & -> & ->).
  destruct (recording_view Uno.recording Uno.sampleCount Uno.lastSampleTime
              Uno.maxSamples Uno.sampleInterval Uno.incr Uno.stablePressed
              env' (globals m) R) as (-> & -> & -> & -> & ->).
  change (due Uno.lastSampleTime Uno.sampleInterval env' (globals m))
    with (due Uno.lastSampleTime Uno.sampleInterval env (globals m)).
  repeat split.
  destruct (due _ _ env (globals m)); cbn;
    [destruct (_ >=? _); cbn|]; repeat constructor.
Qed.

Lemma simple_trigger_ignored b ms env m :
  Simple.recording (globals m) = true ->
  let env' := mkInputs b ms (nowUs env) (adc env) in
  events Simple.loop env' m = events Simple.loop env m /\
  Simple.sampleCount (globals (next Simple.loop env' m))
  = Simple.sampleCount (globals (next Simple.loop env m)) /\
  Simple.recording (globals (next Simple.loop env' m))
  = Simple.recording (globals (next Simple.loop env m)) /\
  Simple.lastSampleTime (globals (next Simple.loop env' m))
  = Simple.lastSampleTime (globals (next Simple.loop env m)) /\
  latch (next Simple.loop env' m) = latch (next Simple.loop env m) /\
  Forall (fun e => start_marker e = false /\
                   is_write Simple.recordingLedPin HIGH e = false)
         (events Simple.loop env m).
Proof.
  intros R env'. unfold next, events. rewrite !simple_loop_eq.
  cbn [fst snd].
  unfold simple_after, simple_events, simple_finished, simple_counted,
    simple_sampled, simple_active, simple_started.
  cbn [globals latch Simple.sampleCount Simple.recording
       Simple.lastSampleTime].
  destruct (recording_view Simple.recording Simple.sampleCount
              Simple.lastSampleTime Simple.maxSamples Simple.sampleInterval
              Simple.incr Simple.pressed env (globals m) R)
    as (-> & -> & -> & -> & ->).
  destruct (recording_view Simple.recording Simple.sampleCount
              Simple.lastSampleTime Simple.maxSamples Simple.sampleInterval
              Simple.incr Simple.pressed env' (globals m) R)
    as (-> & -> & -> & -> & ->).
  change (due Simple.lastSampleTime Simple.sampleInterval env' (globals m))
    with (due Simple.lastSampleTime Simple.sampleInterval env (globals m)).
  repeat split.
  destruct (due _ _ env (globals m)); cbn;
    [destruct (_ >=? _); cbn|]; repeat constructor.
Qed.

Lemma esp32_payload_recording b ms env m :
  Esp.recording (globals m) = true ->
  Esp.payload (mkInputs b ms (nowUs env) (adc env)) m = Esp.payload env m.
Proof.
  intro R. unfold Esp.payload, Esp.count_at_sample, Esp.led_at_sample.
  rewrite R, !andb_false_r. reflexivity.
Qed.

Lemma esp32_trigger_ignored b ms env m :
  Esp.recording (globals m) = true ->
  let env' := mkInputs b ms (nowUs env) (adc env) in
  events Esp.loop env' m = events Esp.loop env m /\
  Esp.sampleCount (globals (next Esp.loop env' m))
  = Esp.sampleCount (globals (next Esp.loop env m)) /\
  Esp.recording (globals (next Esp.loop env' m))
  = Esp.recording (globals (next Esp.loop env m)) /\
  Esp.lastSampleTime (globals (next Esp.loop env' m))
  = Esp.lastSampleTime (globals (next Esp.loop env m)) /\
  latch (next Esp.loop env' m) = latch (next Esp.loop env m) /\
  Forall (fun e => start_marker e = false) (events Esp.loop env m).
Proof.
  intros R env'. unfold next, events. rewrite !esp32_loop_eq.
  cbn [fst snd].
  unfold esp32_after, esp32_events, esp32_blinks, esp32_finished,
    esp32_counted, esp32_sampled, esp32_active, esp32_started.
  cbn [globals latch Esp.sampleCount Esp.recording Esp.lastSampleTime].
  destruct (recording_view Esp.recording Esp.sampleCount Esp.lastSampleTime
              Esp.maxSamples Esp.sampleInterval Esp.incr Esp.pressed
              env (globals m) R) as (-> & -> & -> & -> & ->).
  destruct (recording_view Esp.recording Esp.sampleCount Esp.lastSampleTime
              Esp.maxSamples Esp.sampleInterval Esp.incr Esp.pressed
              env' (globals m) R) as (-> & -> & -> & -> & ->).
  change (due Esp.lastSampleTime Esp.sampleInterval env' (globals m))
    with (due Esp.lastSampleTime Esp.sampleInterval env (globals m)).
  unfold env'. rewrite esp32_payload_recording by exact R.
  repeat split.
  unfold Esp.payload.
  destruct (due _ _ env (globals m)); cbn;
    [destruct (Z.rem _ _ =? 0); destruct (_ >=? _); cbn|];
    repeat constructor.
Qed.

(** C7.  While [recording] is true, what a pass does is the same whatever
    the button and [millis()] read: the same events (so no LED write and no
    marker caused by the button), the same [sampleCount], [recording],
    [lastSampleTime] and pin levels afterwards; and the pass writes no
    start marker (nor, in the Uno sketches, the LED HIGH). *)
Theorem trigger_ignored_while_recording (b : Level) (ms : Z) (env : Inputs) :
  let env' := mkInputs b ms (nowUs env) (adc env) in
  (forall m,
     Uno.recording (globals m) = true ->
     events Uno.loop env' m = events Uno.loop env m /\
     Uno.sampleCount (globals (next Uno.loop env' m))
     = Uno.sampleCount (globals (next Uno.loop env m)) /\
     Uno.recording (globals (next Uno.loop env' m))
     = Uno.recording (globals (next Uno.loop env m)) /\
     Uno.lastSampleTime (globals (next Uno.loop env' m))
     = Uno.lastSampleTime (globals (next Uno.loop env m)) /\
     latch (next Uno.loop env' m) = latch (next Uno.loop env m) /\
     Forall (fun e => start_marker e = false /\
                      is_write Uno.recordingLedPin HIGH e = false)
            (events Uno.loop env m)) /\
  (forall m,
     Simple.recording (globals m) = true ->
     events Simple.loop env' m = events Simple.loop env m /\
     Simple.sampleCount (globals (next Simple.loop env' m))
     = Simple.sampleCount (globals (next Simple.loop env m)) /\
     Simple.recording (globals (next Simple.loop env' m))
     = Simple.recording (globals (next Simple.loop env m)) /\
     Simple.lastSampleTime (globals (next Simple.loop env' m))
     = Simple.lastSampleTime (globals (next Simple.loop env m)) /\
     latch (next Simple.loop env' m) = latch (next Simple.loop env m) /\
     Forall (fun e => start_marker e = false /\
                      is_write Simple.recordingLedPin HIGH e = false)
            (events Simple.loop env m)) /\
  (forall m,
     Esp.recording (globals m) = true ->
     events Esp.loop env' m = events Esp.loop env m /\
     Esp.sampleCount (globals (next Esp.loop env' m))
     = Esp.sampleCount (globals (next Esp.loop env m)) /\
     Esp.recording (globals (next Esp.loop env' m))
     = Esp.recording (globals (next Esp.loop env m)) /\
     Esp.lastSampleTime (globals (next Esp.loop env' m))
     = Esp.lastSampleTime (globals (next Esp.loop env m)) /\
     latch (next Esp.loop env' m) = latch (next Esp.loop env m) /\
     Forall (fun e => start_marker e = false) (events Esp.loop env m)).
Proof.
  intro env'. split; [|split]; intros m R.
  - now apply uno_trigger_ignored.
  - now apply simple_trigger_ignored.
  - now apply esp32_trigger_ignored.
Qed.

(** ** The debounce *)

Lemma uno_bounce_pass env m since :
  Uno.recording (globals m) = false ->
  debounce_tracks (globals m) since ->
  bounces_within Uno.debounceMs since [env] = true ->
  Uno.stablePressed env (globals m) = false /\
  events Uno.loop env m = [] /\
  Uno.recording (globals (next Uno.loop env m)) = false /\
  debounce_tracks (globals (next Uno.loop env m))
    (if Uno.pressedNow env
     then Some (match since with Some t => t | None => nowMs env end)
     else None).
Proof.
  intros R D B.
  assert (St : Uno.stablePressed env (globals m) = false).
  { unfold Uno.stablePressed, Uno.changeMs. cbn [bounces_within] in B.
    destruct (Uno.pressedNow env); [|reflexivity].
    rewrite andb_true_r in B. cbn [andb].
    destruct since as [t|]; cbn in D.
    - destruct D as [-> ->]. cbn. lia.
    - rewrite D. cbn. lia. }
  unfold next, events. rewrite uno_loop_eq. cbn [fst snd].
  unfold uno_after, uno_events, uno_finished, uno_counted, uno_sampled,
    uno_active, uno_started, finished, counted, sampled, active, started.
  cbn [globals Uno.recording Uno.lastButtonPressed Uno.lastButtonChangeMs].
  rewrite St, R. cbn.
  repeat split; try assumption.
  unfold Uno.changeMs.
  destruct (Uno.pressedNow env); destruct since as [t|]; cbn in D |- *.
  - destruct D as [-> ->]. auto.
  - rewrite D. auto.
  - reflexivity.
  - reflexivity.
Qed.

Lemma uno_bounce_run ins : forall m since,
  Uno.recording (globals m) = false ->
  debounce_tracks (globals m) since ->
  bounces_within Uno.debounceMs since ins = true ->
  (forall pre env post,
     ins = pre ++ env :: post ->
     Uno.stablePressed env (globals (final Uno.loop pre m)) = false) /\
  trace Uno.loop ins m = [] /\
  Uno.recording (globals (final Uno.loop ins m)) = false.
Proof.
  induction ins as [|env ins IH]; intros m since R D B.
  - repeat split; try assumption.
    intros [|e pre] env post H; discriminate H.
  - assert (B1 : bounces_within Uno.debounceMs since [env] = true).
    { cbn [bounces_within] in B |- *.
      destruct (Uno.pressedNow env); [|reflexivity].
      apply andb_prop in B as [-> _]. reflexivity. }
    destruct (uno_bounce_pass env m since R D B1) as (St & Ev & R' & D').
    assert (B2 : bounces_within Uno.debounceMs
                   (if Uno.pressedNow env
                    then Some (match since with
                               | Some t => t | None => nowMs env end)
                    else None) ins = true).
    { cbn [bounces_within] in B.
      destruct (Uno.pressedNow env); [|exact B].
      now apply andb_prop in B as [_ B]. }
    destruct (IH _ _ R' D' B2) as (Hst & Htr & Hr).
    rewrite (final_cons Uno.loop), (trace_cons Uno.loop), Ev, Htr.
    repeat split; try assumption.
    intros [|e pre] env0 post H; injection H as -> ->.
    + exact St.
    + rewrite (final_cons Uno.loop). now apply (Hst pre env0 post).
Qed.

(** C8.  Under the edge-debounce policy (window [debounceMs] = 40 ms), if
    the button never reads pressed over a span longer than the window, as
    with a 5 ms bounce train, then [stablePressed] is false in every pass,
    nothing is emitted and no session starts. *)
Theorem bounce_never_stable (ins : list Inputs) :
  bounces_within Uno.debounceMs None ins = true ->
  Uno.debounceMs = 40 /\
  (forall pre env post,
     ins = pre ++ env :: post ->
     Uno.stablePressed env (globals (final Uno.loop pre Uno.power_on))
     = false) /\
  trace Uno.loop ins Uno.power_on = [] /\
  Uno.recording (globals (final Uno.loop ins Uno.power_on)) = false.
Proof.
  intro B. split; [reflexivity|].
  apply (uno_bounce_run ins Uno.power_on None); [reflexivity | reflexivity | exact B].
Qed.

Lemma bounce_never_stable_witness :
  Uno.debounceMs = 40 /\
  (forall pre env post,
     bounce_train = pre ++ env :: post ->
     Uno.stablePressed env (globals (final Uno.loop pre Uno.power_on))
     = false) /\
  trace Uno.loop bounce_train Uno.power_on = [] /\
  Uno.recording (globals (final Uno.loop bounce_train Uno.power_on)) = false.
Proof.
  apply (bounce_never_stable bounce_train). vm_compute. reflexivity.
Defined.

(** ** One press, more than one session *)

Lemma held_length t n : length (held t n) = n.
Proof.
  revert t. induction n as [|n IH]; intro t; cbn; [|rewrite IH]; reflexivity.
Qed.

Lemma held_low t n : Forall (fun env => button env = LOW) (held t n).
Proof.
  revert t. induction n as [|n IH]; intro t; cbn; constructor; auto.
Qed.

Lemma held_all_due t n : all_due 125 t (held (t + 125) n) = true.
Proof.
  revert t. induction n as [|n IH]; intro t; cbn [held all_due nowUs].
  - reflexivity.
  - rewrite IH, andb_true_r.
    replace (t + 125 - t) with 125 by ring. reflexivity.
Qed.

Lemma simple_start_counts :
  count_events (is_write Simple.recordingLedPin HIGH) Simple.start_events
  = 1%nat.
Proof. reflexivity. Qed.

(** An idle pass that finds the button down starts a session. *)
Lemma simple_idle_press_starts env m :
  Simple.recording (globals m) = false ->
  button env = LOW ->
  exists rest, events Simple.loop env m = Simple.start_events ++ rest.
Proof.
  intros R B. unfold events. rewrite simple_loop_eq. cbn [snd].
  unfold simple_events, simple_started, started, Simple.pressed.
  rewrite R, B. cbn [Level_eqb andb negb]. eexists. reflexivity.
Qed.

Lemma uno_idle_press_starts env m :
  Uno.recording (globals m) = false ->
  Uno.stablePressed env (globals m) = true ->
  exists rest, events Uno.loop env m = Uno.start_events ++ rest.
Proof.
  intros R B. unfold events. rewrite uno_loop_eq. cbn [snd].
  unfold uno_events, uno_started, started.
  rewrite R, B. cbn [andb negb]. eexists. reflexivity.
Qed.

(** A press held through a whole session and one pass more: the pass after
    the session's end starts the next session. *)
Lemma simple_held_press_restarts (t0 : Z) (n : nat) (last : Inputs) :
  125 <= t0 < 2 ^ 32 ->
  Z.of_nat n = 119999 ->
  button last = LOW ->
  (2 <= count_events (is_write Simple.recordingLedPin HIGH)
          (trace Simple.loop
                 ((mkInputs LOW 0 t0 512 :: held (t0 + 125) n) ++ [last])
                 Simple.power_on))%nat.
Proof.
  intros Ht Hn Hlast. rewrite (trace_app Simple.loop).
  destruct (session_runs Simple.loop Simple.recording Simple.sampleCount
              Simple.lastSampleTime Simple.maxSamples
              Simple.sampleInterval Simple.incr Simple.pressed
              Simple.start_events Simple.stop_events Simple.payload
              is_sample simple_maxSamples_pos simple_incr_small
              simple_loop_view eq_refl eq_refl simple_samples_payload
              (mkInputs LOW 0 t0 512) (held (t0 + 125) n) Simple.power_on)
    as (Hrec & body & Htr & _).
  - reflexivity.
  - reflexivity.
  - cbn [all_due nowUs]. rewrite (held_all_due t0), andb_true_r.
    change (Simple.lastSampleTime (globals Simple.power_on)) with 0.
    rewrite Z.sub_0_r, uint32_small by lia.
    change Simple.sampleInterval with 125. lia.
  - cbn [length]. rewrite held_length, Nat2Z.inj_succ, Hn. reflexivity.
  - destruct (simple_idle_press_starts last _ Hrec Hlast) as [rest Hev].
    rewrite Htr, (trace_cons Simple.loop), Hev.
    rewrite !count_events_app, simple_start_counts. lia.
Qed.

(** While the button reads LOW and was last seen pressed, the debounce
    globals of the first sketch do not move. *)
Lemma uno_hold_keeps_debounce ins : forall m,
  Forall (fun env => button env = LOW) ins ->
  Uno.lastButtonPressed (globals m) = true ->
  Uno.lastButtonPressed (globals (final Uno.loop ins m)) = true /\
  Uno.lastButtonChangeMs (globals (final Uno.loop ins m))
  = Uno.lastButtonChangeMs (globals m).
Proof.
  induction ins as [|env ins IH]; intros m Hlow Hp.
  - split; [exact Hp | reflexivity].
  - apply Forall_cons_iff in Hlow as [Hb Hlow].
    rewrite (final_cons Uno.loop).
    assert (Hn : Uno.lastButtonPressed (globals (next Uno.loop env m)) = true
                 /\ Uno.lastButtonChangeMs (globals (next Uno.loop env m))
                    = Uno.lastButtonChangeMs (globals m)).
    { unfold next. rewrite uno_loop_eq. cbn [fst snd].
      unfold uno_after.
      cbn [globals Uno.lastButtonPressed Uno.lastButtonChangeMs].
      unfold Uno.changeMs, Uno.pressedNow. rewrite Hb, Hp. split; reflexivity. }
    destruct Hn as [Hp' Hc'].
    destruct (IH _ Hlow Hp') as [H1 H2].
    split; [exact H1 | now rewrite H2].
Qed.

(** The same press in the first sketch: once the session has run to its
    end, the pass that finds the button still down starts the next one. *)
Lemma uno_held_press_restarts (n : nat) :
  Z.of_nat n = 119999 ->
  (2 <= count_events (is_write Uno.recordingLedPin HIGH)
          (trace Uno.loop
                 (long_press_idle
                  ++ (long_press_start :: held (111000 + 125) n)
                  ++ [long_press_after])
                 Uno.power_on))%nat.
Proof.
  intro Hn. rewrite !(trace_app Uno.loop).
  set (m1 := final Uno.loop long_press_idle Uno.power_on).
  assert (R1 : Uno.recording (globals m1) = false)
    by (vm_compute; reflexivity).
  assert (T1 : Uno.lastSampleTime (globals m1) = 0)
    by (vm_compute; reflexivity).
  assert (P1 : Uno.lastButtonPressed (globals m1) = true)
    by (vm_compute; reflexivity).
  assert (C1 : Uno.lastButtonChangeMs (globals m1) = 0)
    by (vm_compute; reflexivity).
  assert (S1 : Uno.stablePressed long_press_start (globals m1) = true).
  { unfold Uno.stablePressed, Uno.changeMs. rewrite P1, C1. reflexivity. }
  destruct (session_runs Uno.loop Uno.recording Uno.sampleCount
              Uno.lastSampleTime Uno.maxSamples Uno.sampleInterval
              Uno.incr Uno.stablePressed Uno.start_events Uno.stop_events
              Uno.payload is_sample uno_maxSamples_pos uno_incr_small
              uno_loop_view eq_refl eq_refl uno_samples_payload
              long_press_start (held (111000 + 125) n) m1 R1 S1)
    as (R2 & body & Htr & _).
  - cbn [all_due]. rewrite T1.
    change (nowUs long_press_start) with 111000.
    rewrite (held_all_due 111000). reflexivity.
  - cbn [length]. rewrite held_length, Nat2Z.inj_succ, Hn. reflexivity.
  - set (m2 := final Uno.loop
                 (long_press_start :: held (111000 + 125) n) m1) in *.
    destruct (uno_hold_keeps_debounce
                (long_press_start :: held (111000 + 125) n) m1)
      as [P2 C2].
    + constructor; [reflexivity | apply held_low].
    + exact P1.
    + fold m2 in P2, C2. rewrite C1 in C2.
      assert (S2 : Uno.stablePressed long_press_after (globals m2) = true).
      { unfold Uno.stablePressed, Uno.changeMs. rewrite P2, C2. reflexivity. }
      destruct (uno_idle_press_starts long_press_after m2 R2 S2)
        as [rest Hev].
      rewrite Htr, (trace_cons Uno.loop), Hev.
      rewrite !count_events_app.
      change (count_events (is_write Uno.recordingLedPin HIGH)
                           Uno.start_events) with 1%nat.
      lia.
Qed.

(** C9, as stated, fails: in either Uno sketch a single press, held from
    power-on until just after the session it started has ended, drives the
    LED HIGH, that is starts a session, twice. *)
Lemma long_press_starts_two_sessions :
  (Forall (fun env => button env = LOW) long_press /\
   (2 <= count_events (is_write Simple.recordingLedPin HIGH)
                      (trace Simple.loop long_press Simple.power_on))%nat) /\
  (Forall (fun env => button env = LOW) long_press_uno /\
   (2 <= count_events (is_write Uno.recordingLedPin HIGH)
                      (trace Uno.loop long_press_uno Uno.power_on))%nat).
Proof.
  split; split.
  - unfold long_press. apply Forall_app. split.
    + constructor; [reflexivity | apply held_low].
    + repeat constructor.
  - apply (simple_held_press_restarts 200125);
      [lia | apply Z2Nat.id; discriminate | reflexivity].
  - unfold long_press_uno, long_press_idle. apply Forall_app. split.
    + constructor; [reflexivity | apply held_low].
    + apply Forall_app. split.
      * constructor; [reflexivity | apply held_low].
      * repeat constructor.
  - apply uno_held_press_restarts. apply Z2Nat.id. discriminate.
Qed.

Lemma count_events_none p tr :
  Forall (fun e => p e = false) tr -> count_events p tr = 0%nat.
Proof.
  unfold count_events. induction 1 as [|e tr He _ IH]; cbn.
  - reflexivity.
  - now rewrite He.
Qed.

Lemma uno_starts_after_ends ins :
  (count_events (is_write Uno.recordingLedPin HIGH)
                (trace Uno.loop ins Uno.power_on)
   <= count_events (is_write Uno.recordingLedPin LOW)
                   (trace Uno.loop ins Uno.power_on) + 1)%nat.
Proof.
  refine (sessions_begin_after_end Uno.maxSamples Uno.start_events
            Uno.stop_events Uno.payload _ _ _ _ _ _ _ _ None _
            (uno_trace_sessions ins)); reflexivity.
Qed.

Lemma simple_starts_after_ends ins :
  (count_events (is_write Simple.recordingLedPin HIGH)
                (trace Simple.loop ins Simple.power_on)
   <= count_events (is_write Simple.recordingLedPin LOW)
                   (trace Simple.loop ins Simple.power_on) + 1)%nat.
Proof.
  refine (sessions_begin_after_end Simple.maxSamples Simple.start_events
            Simple.stop_events Simple.payload _ _ _ _ _ _ _ _ None _
            (simple_trace_sessions ins)); reflexivity.
Qed.

(** What a pass does about the start block, exactly: it drives the LED
    HIGH once when the machine is idle and the button condition holds, and
    not at all otherwise. *)
Lemma uno_pass_start_count env m :
  count_events (is_write Uno.recordingLedPin HIGH) (events Uno.loop env m)
  = if negb (Uno.recording (globals m)) && Uno.stablePressed env (globals m)
    then 1%nat else 0%nat.
Proof.
  unfold events. rewrite uno_loop_eq. cbn [snd]. unfold uno_events.
  rewrite !count_events_app.
  destruct (uno_sampled _ _), (uno_finished _ _);
    unfold uno_started, started;
    destruct (Uno.recording (globals m)),
      (Uno.stablePressed env (globals m)); reflexivity.
Qed.

Lemma simple_pass_start_count env m :
  count_events (is_write Simple.recordingLedPin HIGH)
               (events Simple.loop env m)
  = if negb (Simple.recording (globals m)) && Level_eqb (button env) LOW
    then 1%nat else 0%nat.
Proof.
  unfold events. rewrite simple_loop_eq. cbn [snd]. unfold simple_events.
  rewrite !count_events_app.
  destruct (simple_sampled _ _), (simple_finished _ _);
    unfold simple_started, started, Simple.pressed;
    destruct (Simple.recording (globals m)), (button env); reflexivity.
Qed.

(** An idle pass that does not find the button condition does nothing that
    can be seen, and leaves the machine idle. *)
Lemma uno_idle_release_quiet env m :
  Uno.recording (globals m) = false ->
  Uno.stablePressed env (globals m) = false ->
  events Uno.loop env m = [] /\
  Uno.recording (globals (next Uno.loop env m)) = false /\
  Uno.sampleCount (globals (next Uno.loop env m))
  = Uno.sampleCount (globals m) /\
  Uno.lastSampleTime (globals (next Uno.loop env m))
  = Uno.lastSampleTime (globals m) /\
  latch (next Uno.loop env m) = latch m.
Proof.
  intros R T. unfold events, next. rewrite uno_loop_eq. cbn [fst snd].
  unfold uno_events, uno_after.
  cbn [globals latch Uno.recording Uno.sampleCount Uno.lastSampleTime].
  unfold uno_finished, finished, uno_counted, counted, uno_sampled, sampled,
    uno_active, active, uno_started, started.
  rewrite R, T. repeat split.
Qed.

Lemma simple_idle_release_quiet env m :
  Simple.recording (globals m) = false ->
  button env = HIGH ->
  events Simple.loop env m = [] /\ next Simple.loop env m = m.
Proof.
  intros R B. unfold events, next. rewrite simple_loop_eq.
  destruct m as [[lst cnt rec] lat], env as [b ms us a].
  cbn in R, B. subst rec b. split; reflexivity.
Qed.

(** The pass that starts a session leaves it open. *)
Lemma uno_idle_press_records env m :
  Uno.recording (globals m) = false ->
  Uno.stablePressed env (globals m) = true ->
  Uno.recording (globals (next Uno.loop env m)) = true.
Proof.
  intros R T. unfold next. rewrite uno_loop_eq. cbn [fst snd].
  unfold uno_after. cbn [globals Uno.recording].
  unfold uno_finished, finished, uno_counted, counted, uno_sampled, sampled,
    uno_active, active, uno_started, started.
  rewrite R, T. cbn [negb andb orb].
  destruct (due _ _ _ _); reflexivity.
Qed.

Lemma simple_idle_press_records env m :
  Simple.recording (globals m) = false ->
  button env = LOW ->
  Simple.recording (globals (next Simple.loop env m)) = true.
Proof.
  intros R B. unfold next. rewrite simple_loop_eq. cbn [fst snd].
  unfold simple_after. cbn [globals Simple.recording].
  unfold simple_finished, finished, simple_counted, counted, simple_sampled,
    sampled, simple_active, active, simple_started, started, Simple.pressed.
  rewrite R, B. cbn [Level_eqb negb andb orb].
  destruct (due _ _ _ _); reflexivity.
Qed.

(** C9, amended.  The start request is a level, gated by [!recording]: a
    pass starts a session exactly when no session is in progress and the
    button reads stably pressed (first Uno sketch) or LOW (second one).
    Exactly: a pass drives the LED HIGH once if the machine is idle and the
    button condition holds, and not at all otherwise; an idle pass that
    finds the condition runs the start block and leaves the session open;
    an idle pass that does not find it, as every pass that reads the button
    HIGH, emits nothing and leaves the machine idle.  So a press, however
    long, starts nothing while its session runs, and in any run the LED has
    gone HIGH at most once more than it has gone LOW: a session starts only
    after the one before it has ended.  But a press still held in a pass
    after the natural end of its session does start a new session. *)
Theorem press_starts_session_only_when_idle (ins : list Inputs) :
  ((count_events (is_write Uno.recordingLedPin HIGH)
                 (trace Uno.loop ins Uno.power_on)
    <= count_events (is_write Uno.recordingLedPin LOW)
                    (trace Uno.loop ins Uno.power_on) + 1)%nat /\
   (forall m env,
      Uno.recording (globals m) = true ->
      count_events (is_write Uno.recordingLedPin HIGH)
                   (events Uno.loop env m) = 0%nat) /\
   (forall m env,
      Uno.recording (globals m) = false ->
      Uno.stablePressed env (globals m) = true ->
      exists rest, events Uno.loop env m = Uno.start_events ++ rest) /\
   (forall m env,
      count_events (is_write Uno.recordingLedPin HIGH)
                   (events Uno.loop env m)
      = if negb (Uno.recording (globals m))
           && Uno.stablePressed env (globals m)
        then 1%nat else 0%nat) /\
   (forall m env,
      Uno.recording (globals m) = false ->
      (Uno.recording (globals (next Uno.loop env m)) = true <->
       Uno.stablePressed env (globals m) = true)) /\
   (forall m env,
      Uno.recording (globals m) = false ->
      Uno.stablePressed env (globals m) = false ->
      events Uno.loop env m = [] /\
      Uno.recording (globals (next Uno.loop env m)) = false /\
      Uno.sampleCount (globals (next Uno.loop env m))
      = Uno.sampleCount (globals m) /\
      Uno.lastSampleTime (globals (next Uno.loop env m))
      = Uno.lastSampleTime (globals m) /\
      latch (next Uno.loop env m) = latch m) /\
   (forall m env,
      button env = HIGH -> Uno.stablePressed env (globals m) = false)) /\
  ((count_events (is_write Simple.recordingLedPin HIGH)
                 (trace Simple.loop ins Simple.power_on)
    <= count_events (is_write Simple.recordingLedPin LOW)
                    (trace Simple.loop ins Simple.power_on) + 1)%nat /\
   (forall m env,
      Simple.recording (globals m) = true ->
      count_events (is_write Simple.recordingLedPin HIGH)
                   (events Simple.loop env m) = 0%nat) /\
   (forall m env,
      Simple.recording (globals m) = false ->
      button env = LOW ->
      exists rest, events Simple.loop env m = Simple.start_events ++ rest) /\
   (forall m env,
      count_events (is_write Simple.recordingLedPin HIGH)
                   (events Simple.loop env m)
      = if negb (Simple.recording (globals m))
           && Level_eqb (button env) LOW
        then 1%nat else 0%nat) /\
   (forall m env,
      Simple.recording (globals m) = false ->
      (Simple.recording (globals (next Simple.loop env m)) = true <->
       button env = LOW)) /\
   (forall m env,
      Simple.recording (globals m) = false ->
      button env = HIGH ->
      events Simple.loop env m = [] /\ next Simple.loop env m = m)).
Proof.
  split.
  - split; [|split; [|split; [|split; [|split; [|split]]]]].
    + apply uno_starts_after_ends.
    + intros m env R. apply count_events_none.
      destruct (uno_trigger_ignored LOW 0 env m R)
        as (_ & _ & _ & _ & _ & H).
      eapply Forall_impl; [|exact H]. now intros e [_ He].
    + intros m env. apply uno_idle_press_starts.
    + intros m env. apply uno_pass_start_count.
    + intros m env R. split.
      * intro R'. destruct (Uno.stablePressed env (globals m)) eqn:T;
          [reflexivity|].
        destruct (uno_idle_release_quiet env m R T) as (_ & Q & _).
        congruence.
      * apply uno_idle_press_records, R.
    + intros m env. apply uno_idle_release_quiet.
    + intros m env B. unfold Uno.stablePressed, Uno.pressedNow.
      rewrite B. reflexivity.
  - split; [|split; [|split; [|split; [|split]]]].
    + apply simple_starts_after_ends.
    + intros m env R. apply count_events_none.
      destruct (simple_trigger_ignored LOW 0 env m R)
        as (_ & _ & _ & _ & _ & H).
      eapply Forall_impl; [|exact H]. now intros e [_ He].
    + intros m env. apply simple_idle_press_starts.
    + intros m env. apply simple_pass_start_count.
    + intros m env R. split.
      * intro R'. destruct (button env) eqn:B; [reflexivity|].
        destruct (simple_idle_release_quiet env m R B) as [_ Q].
        rewrite Q in R'. congruence.
      * apply simple_idle_press_records, R.
    + intros m env. apply simple_idle_release_quiet.
Qed.

(** ** The blinking LED of the ESP32 sketch *)

Lemma led_level_next c :
  0 <= c ->
  led_level (c + 1)
  = if Z.rem (c + 1) Esp.sampleRate =? 0
    then Level_not (led_level c) else led_level c.
Proof.
  intro Hc. unfold led_level.
  rewrite Z.rem_mod_nonneg by (try reflexivity; lia).
  change Esp.sampleRate with 16000.
  destruct (Z.eqb_spec ((c + 1) mod 16000) 0) as [E|E].
  - replace ((c + 1) / 16000) with (Z.succ (c / 16000))
      by (Z.div_mod_to_equations; lia).
    rewrite Z.even_succ, <- Z.negb_even.
    destruct (Z.even (c / 16000)); reflexivity.
  - replace ((c + 1) / 16000) with (c / 16000)
      by (Z.div_mod_to_equations; lia).
    reflexivity.
Qed.

Lemma esp32_led_pass env m :
  session_ok Esp.recording Esp.sampleCount Esp.maxSamples (globals m) ->
  led_ok m -> led_ok (next Esp.loop env m).
Proof.
  intros Hok Hled. unfold led_ok, next in *. rewrite esp32_loop_eq.
  cbn [fst snd]. unfold esp32_after.
  cbn [globals latch Esp.recording Esp.sampleCount].
  unfold esp32_blinks, esp32_finished, esp32_counted, esp32_sampled,
    esp32_active, esp32_started.
  destruct (Esp.recording (globals m)) eqn:R.
  - specialize (Hok R).
    destruct (recording_view Esp.recording Esp.sampleCount
                Esp.lastSampleTime Esp.maxSamples Esp.sampleInterval
                Esp.incr Esp.pressed env (globals m) R)
      as (-> & -> & -> & -> & ->).
    cbn [andb negb].
    destruct (due _ _ env (globals m)); cbn [andb negb]; [|exact Hled].
    rewrite esp32_incr_small by exact Hok.
    destruct (Esp.sampleCount (globals m) + 1 >=? Esp.maxSamples) eqn:F;
      cbn [negb].
    + apply set_pin_same.
    + rewrite led_level_next by lia.
      destruct (Z.rem _ _ =? 0).
      * now rewrite set_pin_same, Hled.
      * exact Hled.
  - unfold finished, counted, sampled, active, started.
    rewrite R. cbn [negb orb]. rewrite andb_true_r.
    destruct (Esp.pressed env (globals m)); cbn [andb]; [|exact Hled].
    destruct (due _ _ env (globals m)); cbn [andb negb].
    + rewrite esp32_incr_small by (vm_compute; split; congruence).
      cbn. rewrite ?set_pin_same. reflexivity.
    + rewrite set_pin_same. reflexivity.
Qed.

Lemma esp32_led_run ins : forall m,
  session_ok Esp.recording Esp.sampleCount Esp.maxSamples (globals m) ->
  led_ok m -> led_ok (final Esp.loop ins m).
Proof.
  induction ins as [|env ins IH]; intros m Hok Hled.
  - exact Hled.
  - rewrite (final_cons Esp.loop). apply IH.
    + eapply pass_session_ok;
        [ exact esp32_maxSamples_pos | exact esp32_incr_small
        | exact esp32_loop_view | exact Hok ].
    + now apply esp32_led_pass.
Qed.

(** What a sampling pass of a running session emits. *)
Lemma esp32_sampling_pass env m :
  session_ok Esp.recording Esp.sampleCount Esp.maxSamples (globals m) ->
  Esp.recording (globals m) = true ->
  (uint32 (nowUs env - Esp.lastSampleTime (globals m))
   >=? Esp.sampleInterval) = true ->
  events Esp.loop env m
  = SerialWrite (bytes_of_int16 (Esp.pcm_of_adc (adc env)))
    :: (if Z.rem (Esp.sampleCount (globals m) + 1) Esp.sampleRate =? 0
        then [DigitalWrite Esp.recordingLedPin
                           (Level_not (latch m Esp.recordingLedPin))]
        else [])
    ++ (if Esp.sampleCount (globals m) + 1 >=? Esp.maxSamples
        then [SerialPrintln "STOP"; DigitalWrite Esp.recordingLedPin LOW]
        else []).
Proof.
  intros Hok R D. specialize (Hok R).
  unfold events. rewrite esp32_loop_eq. cbn [snd].
  unfold esp32_events, esp32_finished, esp32_sampled, esp32_started.
  destruct (recording_view Esp.recording Esp.sampleCount
              Esp.lastSampleTime Esp.maxSamples Esp.sampleInterval
              Esp.incr Esp.pressed env (globals m) R)
    as (-> & _ & -> & _ & ->).
  unfold due. rewrite D. cbn [andb app].
  unfold Esp.payload, Esp.count_at_sample, Esp.led_at_sample.
  rewrite R, andb_false_r, esp32_incr_small by exact Hok.
  reflexivity.
Qed.

Lemma triple_eq {A B C : Type} (a x : A) (b y : B) (c z : C) :
  (a, b, c) = (x, y, z) -> a = x /\ b = y /\ c = z.
Proof. intro H. injection H as -> -> ->. auto. Qed.

(** One second into a session, evaluated. *)
Lemma esp32_first_second :
  let m := final Esp.loop first_second Esp.power_on in
  (Esp.recording (globals m), Esp.sampleCount (globals m),
   latch m Esp.recordingLedPin)
  = (true, Esp.sampleRate, LOW).
Proof. vm_compute. reflexivity. Qed.

(** C10.  In the ESP32 sketch, in every state reached from power-on the
    LED is LOW when idle and, in a session that has sent [c] samples, HIGH
    or LOW as [c / sampleRate] is even or odd: it is toggled by the
    sampling pass that brings [sampleCount] to a multiple of [sampleRate]
    and by no other, it is LOW one second into a session, and the pass that
    ends the session drives it LOW. *)
Theorem esp32_led_blinks (ins : list Inputs) (env : Inputs) :
  let m := final Esp.loop ins Esp.power_on in
  latch m Esp.recordingLedPin
  = (if Esp.recording (globals m)
     then if Z.even (Esp.sampleCount (globals m) / Esp.sampleRate)
          then HIGH else LOW
     else LOW) /\
  (Esp.recording (globals m) = true ->
   (uint32 (nowUs env - Esp.lastSampleTime (globals m))
    >=? Esp.sampleInterval) = true ->
   events Esp.loop env m
   = SerialWrite (bytes_of_int16 (Esp.pcm_of_adc (adc env)))
     :: (if Z.rem (Esp.sampleCount (globals m) + 1) Esp.sampleRate =? 0
         then [DigitalWrite Esp.recordingLedPin
                            (Level_not (latch m Esp.recordingLedPin))]
         else [])
     ++ (if Esp.sampleCount (globals m) + 1 >=? Esp.maxSamples
         then [SerialPrintln "STOP"; DigitalWrite Esp.recordingLedPin LOW]
         else [])) /\
  (Esp.recording (globals (final Esp.loop first_second Esp.power_on)) = true
   /\ Esp.sampleCount (globals (final Esp.loop first_second Esp.power_on))
      = Esp.sampleRate
   /\ latch (final Esp.loop first_second Esp.power_on) Esp.recordingLedPin
      = LOW).
Proof.
  intro m. split; [|split].
  - apply (esp32_led_run ins Esp.power_on);
      [exact esp32_power_on_ok | reflexivity].
  - apply esp32_sampling_pass. apply esp32_reachable_ok.
  - exact (triple_eq _ _ _ _ _ _ esp32_first_second).
Qed.

Lemma trigger_ignored_while_recording_witness :
  events Uno.loop (mkInputs LOW 99 15040875 700) uno_two_to_go
  = events Uno.loop (mkInputs HIGH 15041 15040875 700) uno_two_to_go.
Proof.
  destruct (proj1 (trigger_ignored_while_recording
                     LOW 99 (mkInputs HIGH 15041 15040875 700))
                  uno_two_to_go eq_refl) as [H _].
  exact H.
Defined.

(** ** More on the PCM converter and the sample bytes *)

Lemma int16_range z : - 2 ^ 15 <= int16 z < 2 ^ 15.
Proof.
  unfold int16. pose proof (Z.mod_pos_bound (z + 2 ^ 15) (2 ^ 16)). lia.
Qed.

(** X1.  The converters are monotonic on the ADC range, and their range is
    the one the source comment announces: from -32768 at reading 0 to
    32704 at reading 1023 on the Uno, and to 32752 at reading 4095 on the
    ESP32. *)
Theorem pcm_monotone_and_range (r1 r2 : Z) :
  (0 <= r1 <= r2 /\ r2 <= 1023 ->
   Uno.pcm_of_adc r1 <= Uno.pcm_of_adc r2 /\
   Uno.pcm_of_adc 0 <= Uno.pcm_of_adc r1 /\
   Uno.pcm_of_adc r2 <= Uno.pcm_of_adc 1023 /\
   Uno.pcm_of_adc 0 = -32768 /\ Uno.pcm_of_adc 1023 = 32704 /\
   Simple.pcm_of_adc r1 = Uno.pcm_of_adc r1) /\
  (0 <= r1 <= r2 /\ r2 <= 4095 ->
   Esp.pcm_of_adc r1 <= Esp.pcm_of_adc r2 /\
   Esp.pcm_of_adc 0 <= Esp.pcm_of_adc r1 /\
   Esp.pcm_of_adc r2 <= Esp.pcm_of_adc 4095 /\
   Esp.pcm_of_adc 0 = -32768 /\ Esp.pcm_of_adc 4095 = 32752).
Proof.
  split; intros [H1 H2].
  - assert (HS : Simple.pcm_of_adc r1 = Uno.pcm_of_adc r1) by reflexivity.
    rewrite HS.
    rewrite (uno_pcm_exact r1), (uno_pcm_exact r2), (uno_pcm_exact 0),
      (uno_pcm_exact 1023) by lia.
    repeat split; lia.
  - rewrite (esp32_pcm_exact r1), (esp32_pcm_exact r2), (esp32_pcm_exact 0),
      (esp32_pcm_exact 4095) by lia.
    repeat split; lia.
Qed.

Lemma pcm_monotone_and_range_witness :
  Uno.pcm_of_adc 100 <= Uno.pcm_of_adc 900 /\
  Esp.pcm_of_adc 100 <= Esp.pcm_of_adc 900.
Proof.
  split.
  - apply (proj1 (pcm_monotone_and_range 100 900)). lia.
  - apply (proj2 (pcm_monotone_and_range 100 900)). lia.
Defined.

(** The byte view of any 16-bit value, read back. *)
Lemma bytes_of_int16_decode v :
  - 2 ^ 15 <= v < 2 ^ 15 ->
  exists lo hi,
    bytes_of_int16 v = [lo; hi] /\
    0 <= lo <= 255 /\ 0 <= hi <= 255 /\
    int16_of_bytes lo hi = v.
Proof.
  intro Hv. unfold bytes_of_int16.
  exists (Z.land v 255), (Z.land (Z.shiftr v 8) 255).
  change 255 with (Z.ones 8).
  rewrite !Z.land_ones, Z.shiftr_div_pow2 by lia.
  change (2 ^ 8) with 256.
  split; [reflexivity|].
  unfold int16_of_bytes, int16.
  change (2 ^ 15) with 32768 in *. change (2 ^ 16) with 65536.
  change (Z.ones 8) with 255.
  Z.div_mod_to_equations. lia.
Qed.

(** X2.  Whatever the ADC reads, the sample write sends exactly two bytes,
    each between 0 and 255, and a receiver that reads them as a
    little-endian two's-complement 16-bit integer gets the PCM value
    back. *)
Theorem sample_bytes_decode (r : Z) :
  (exists lo hi,
     bytes_of_int16 (Uno.pcm_of_adc r) = [lo; hi] /\
     0 <= lo <= 255 /\ 0 <= hi <= 255 /\
     int16_of_bytes lo hi = Uno.pcm_of_adc r) /\
  (exists lo hi,
     bytes_of_int16 (Simple.pcm_of_adc r) = [lo; hi] /\
     0 <= lo <= 255 /\ 0 <= hi <= 255 /\
     int16_of_bytes lo hi = Simple.pcm_of_adc r) /\
  (exists lo hi,
     bytes_of_int16 (Esp.pcm_of_adc r) = [lo; hi] /\
     0 <= lo <= 255 /\ 0 <= hi <= 255 /\
     int16_of_bytes lo hi = Esp.pcm_of_adc r).
Proof.
  split; [|split]; apply bytes_of_int16_decode; apply int16_range.
Qed.

(** The converters leave the low bits of the PCM value clear, whatever the
    reading. *)
Lemma uno_pcm_low_bits r : Uno.pcm_of_adc r mod 64 = 0.
Proof.
  unfold Uno.pcm_of_adc. rewrite shift_scale by lia.
  unfold int16. change (2 ^ 6) with 64. change (2 ^ 15) with 32768.
  change (2 ^ 16) with 65536.
  Z.div_mod_to_equations. lia.
Qed.

Lemma esp32_pcm_low_bits r : Esp.pcm_of_adc r mod 16 = 0.
Proof.
  unfold Esp.pcm_of_adc. cbv zeta. rewrite shift_scale by lia.
  unfold int16. change (2 ^ 4) with 16. change (2 ^ 15) with 32768.
  change (2 ^ 16) with 65536.
  Z.div_mod_to_equations. lia.
Qed.

Lemma low_byte_residue v q :
  0 < q -> (q | 256) -> v mod q = 0 -> Z.land v 255 mod q = 0.
Proof.
  intros Hq [k Hk] Hv. change 255 with (Z.ones 8).
  rewrite Z.land_ones by lia. change (2 ^ 8) with 256.
  apply Z.mod_divide; [lia|].
  apply Z.mod_divide in Hv; [|lia].
  rewrite (Z.mod_eq v 256) by lia.
  apply Z.divide_sub_r; [exact Hv|].
  rewrite Hk. exists (k * (v / (k * q))). ring.
Qed.

(** A pattern whose first two bytes both differ from every low byte does
    not occur in a stream of (low, high) pairs. *)
Lemma payload_bytes_free pcm_of q a b pat :
  (forall r, Z.land (pcm_of r) 255 mod q = 0) ->
  a mod q <> 0 -> b mod q <> 0 ->
  forall adcs, occurs_in (a :: b :: pat) (payload_bytes pcm_of adcs) = false.
Proof.
  intros Hlow Ha Hb.
  assert (Hne : forall x r, x mod q <> 0 ->
                            (x =? Z.land (pcm_of r) 255) = false).
  { intros x r Hx. apply Z.eqb_neq. intro E. apply Hx. rewrite E.
    apply Hlow. }
  induction adcs as [|r adcs IH]; [reflexivity|].
  change (payload_bytes pcm_of (r :: adcs))
    with (Z.land (pcm_of r) 255
          :: Z.land (Z.shiftr (pcm_of r) 8) 255
          :: payload_bytes pcm_of adcs).
  cbn [occurs_in prefix_of]. rewrite (Hne a r Ha), IH.
  cbn [andb orb]. rewrite orb_false_r.
  destruct adcs as [|r' adcs].
  - cbn [payload_bytes flat_map prefix_of]. apply andb_false_r.
  - change (payload_bytes pcm_of (r' :: adcs))
      with (Z.land (pcm_of r') 255
            :: Z.land (Z.shiftr (pcm_of r') 8) 255
            :: payload_bytes pcm_of adcs).
    cbn [prefix_of]. rewrite (Hne b r' Hb). cbn [andb]. apply andb_false_r.
Qed.

(** X3.  Whatever the ADC reads, the PCM value has its low bits clear (a
    multiple of 64 on the Uno, of 16 on the ESP32), and so the bytes of
    any sequence of samples never spell a marker of the sketch, at any
    offset: neither STRT nor DONE on the Uno, neither START nor STOP on
    the ESP32. *)
Theorem payload_never_spells_marker (r : Z) (adcs : list Z) :
  (Uno.pcm_of_adc r mod 64 = 0 /\
   occurs_in (ascii_bytes "STRT") (payload_bytes Uno.pcm_of_adc adcs) = false
   /\
   occurs_in (ascii_bytes "DONE") (payload_bytes Uno.pcm_of_adc adcs) = false)
  /\
  (Esp.pcm_of_adc r mod 16 = 0 /\
   occurs_in (ascii_bytes "START") (payload_bytes Esp.pcm_of_adc adcs) = false
   /\
   occurs_in (ascii_bytes "STOP") (payload_bytes Esp.pcm_of_adc adcs) = false).
Proof.
  assert (HU : forall x, Z.land (Uno.pcm_of_adc x) 255 mod 64 = 0).
  { intro x. apply low_byte_residue;
      [lia | exists 4; reflexivity | apply uno_pcm_low_bits]. }
  assert (HE : forall x, Z.land (Esp.pcm_of_adc x) 255 mod 16 = 0).
  { intro x. apply low_byte_residue;
      [lia | exists 16; reflexivity | apply esp32_pcm_low_bits]. }
  split; (split; [|split]).
  - apply uno_pcm_low_bits.
  - apply (payload_bytes_free Uno.pcm_of_adc 64 83 84 [82; 84] HU);
      discriminate.
  - apply (payload_bytes_free Uno.pcm_of_adc 64 68 79 [78; 69] HU);
      discriminate.
  - apply esp32_pcm_low_bits.
  - apply (payload_bytes_free Esp.pcm_of_adc 16 83 84 [65; 82; 84] HE);
      discriminate.
  - apply (payload_bytes_free Esp.pcm_of_adc 16 83 84 [79; 80] HE);
      discriminate.
Qed.

(** ** The LED, the counter and the idle machine *)

Lemma uno_led_pass env m :
  latch m Uno.recordingLedPin
  = (if Uno.recording (globals m) then HIGH else LOW) ->
  latch (next Uno.loop env m) Uno.recordingLedPin
  = (if Uno.recording (globals (next Uno.loop env m)) then HIGH else LOW).
Proof.
  intro H. unfold next. rewrite uno_loop_eq. cbn [fst snd].
  unfold uno_after. cbn [latch globals Uno.recording].
  destruct (uno_finished env (globals m)).
  - rewrite set_pin_same, andb_false_r. reflexivity.
  - rewrite andb_true_r. unfold uno_active, active. fold uno_started.
    destruct (uno_started env (globals m)).
    + rewrite set_pin_same, orb_true_r. reflexivity.
    + rewrite orb_false_r. exact H.
Qed.

Lemma simple_led_pass env m :
  latch m Simple.recordingLedPin
  = (if Simple.recording (globals m) then HIGH else LOW) ->
  latch (next Simple.loop env m) Simple.recordingLedPin
  = (if Simple.recording (globals (next Simple.loop env m))
     then HIGH else LOW).
Proof.
  intro H. unfold next. rewrite simple_loop_eq. cbn [fst snd].
  unfold simple_after. cbn [latch globals Simple.recording].
  destruct (simple_finished env (globals m)).
  - rewrite set_pin_same, andb_false_r. reflexivity.
  - rewrite andb_true_r. unfold simple_active, active. fold simple_started.
    destruct (simple_started env (globals m)).
    + rewrite set_pin_same, orb_true_r. reflexivity.
    + rewrite orb_false_r. exact H.
Qed.

(** X4.  In the two Uno sketches the LED shows [recording]: in every state
    reached from power-on at the boundary of a pass, the LED pin is HIGH
    when a session is open and LOW when the machine is idle. *)
Theorem uno_led_shows_recording (ins : list Inputs) :
  latch (final Uno.loop ins Uno.power_on) Uno.recordingLedPin
  = (if Uno.recording (globals (final Uno.loop ins Uno.power_on))
     then HIGH else LOW) /\
  latch (final Simple.loop ins Simple.power_on) Simple.recordingLedPin
  = (if Simple.recording (globals (final Simple.loop ins Simple.power_on))
     then HIGH else LOW).
Proof.
  split.
  - assert (H : latch Uno.power_on Uno.recordingLedPin
                = (if Uno.recording (globals Uno.power_on)
                   then HIGH else LOW)) by reflexivity.
    revert H. generalize Uno.power_on.
    induction ins as [|env ins IH]; intros m H; [exact H|].
    rewrite (final_cons Uno.loop). apply IH, uno_led_pass, H.
  - assert (H : latch Simple.power_on Simple.recordingLedPin
                = (if Simple.recording (globals Simple.power_on)
                   then HIGH else LOW)) by reflexivity.
    revert H. generalize Simple.power_on.
    induction ins as [|env ins IH]; intros m H; [exact H|].
    rewrite (final_cons Simple.loop). apply IH, simple_led_pass, H.
Qed.

(** X5.  In every state reached from power-on at the boundary of a pass,
    idle or not, [sampleCount] lies between 0 and [maxSamples]; an idle
    machine has it at 0 (no session yet) or at [maxSamples] (the last
    session ran to its end).  The increment of the counter therefore never
    wraps, in none of the three integer types. *)
Theorem sample_counter_in_range (ins : list Inputs) :
  (0 <= Uno.sampleCount (globals (final Uno.loop ins Uno.power_on))
   <= Uno.maxSamples /\
   (Uno.recording (globals (final Uno.loop ins Uno.power_on)) = false ->
    Uno.sampleCount (globals (final Uno.loop ins Uno.power_on)) = 0 \/
    Uno.sampleCount (globals (final Uno.loop ins Uno.power_on))
    = Uno.maxSamples)) /\
  (0 <= Simple.sampleCount (globals (final Simple.loop ins Simple.power_on))
   <= Simple.maxSamples /\
   (Simple.recording (globals (final Simple.loop ins Simple.power_on))
    = false ->
    Simple.sampleCount (globals (final Simple.loop ins Simple.power_on)) = 0
    \/ Simple.sampleCount (globals (final Simple.loop ins Simple.power_on))
       = Simple.maxSamples)) /\
  (0 <= Esp.sampleCount (globals (final Esp.loop ins Esp.power_on))
   <= Esp.maxSamples /\
   (Esp.recording (globals (final Esp.loop ins Esp.power_on)) = false ->
    Esp.sampleCount (globals (final Esp.loop ins Esp.power_on)) = 0 \/
    Esp.sampleCount (globals (final Esp.loop ins Esp.power_on))
    = Esp.maxSamples)).
Proof.
  split; [|split].
  - pose proof (run_counter_bounds Uno.loop Uno.recording Uno.sampleCount
                  Uno.lastSampleTime Uno.maxSamples Uno.sampleInterval
                  Uno.incr Uno.stablePressed Uno.start_events
                  Uno.stop_events Uno.payload uno_maxSamples_pos
                  uno_incr_small uno_loop_view ins Uno.power_on
                  (or_introl eq_refl)) as H.
    pose proof uno_maxSamples_pos as Hp.
    destruct (Uno.recording (globals (final Uno.loop ins Uno.power_on))).
    + split; [lia | discriminate].
    + split; [lia | intros _; exact H].
  - pose proof (run_counter_bounds Simple.loop Simple.recording
                  Simple.sampleCount Simple.lastSampleTime Simple.maxSamples
                  Simple.sampleInterval Simple.incr Simple.pressed
                  Simple.start_events Simple.stop_events Simple.payload
                  simple_maxSamples_pos simple_incr_small simple_loop_view
                  ins Simple.power_on (or_introl eq_refl)) as H.
    pose proof simple_maxSamples_pos as Hp.
    destruct (Simple.recording
                (globals (final Simple.loop ins Simple.power_on))).
    + split; [lia | discriminate].
    + split; [lia | intros _; exact H].
  - pose proof (run_counter_bounds Esp.loop Esp.recording Esp.sampleCount
                  Esp.lastSampleTime Esp.maxSamples Esp.sampleInterval
                  Esp.incr Esp.pressed Esp.start_events Esp.stop_events
                  Esp.payload esp32_maxSamples_pos esp32_incr_small
                  esp32_loop_view ins Esp.power_on (or_introl eq_refl)) as H.
    pose proof esp32_maxSamples_pos as Hp.
    destruct (Esp.recording (globals (final Esp.loop ins Esp.power_on))).
    + split; [lia | discriminate].
    + split; [lia | intros _; exact H].
Qed.

Lemma uno_quiet_pass env m :
  Uno.recording (globals m) = false ->
  Uno.lastButtonPressed (globals m) = false ->
  button env = HIGH ->
  Uno.loop env m = (tt, m, []).
Proof.
  intros R P B. rewrite uno_loop_eq.
  destruct m as [[lst cnt rec lbp lbc] lat], env as [b ms us a].
  cbn in R, P, B. subst rec lbp b. reflexivity.
Qed.

Lemma simple_quiet_pass env m :
  Simple.recording (globals m) = false ->
  button env = HIGH ->
  Simple.loop env m = (tt, m, []).
Proof.
  intros R B. rewrite simple_loop_eq.
  destruct m as [[lst cnt rec] lat], env as [b ms us a].
  cbn in R, B. subst rec b. reflexivity.
Qed.

Lemma esp32_quiet_pass env m :
  Esp.recording (globals m) = false ->
  button env = HIGH ->
  Esp.loop env m = (tt, m, []).
Proof.
  intros R B. rewrite esp32_loop_eq.
  destruct m as [[lst cnt rec] lat], env as [b ms us a].
  cbn in R, B. subst rec b. reflexivity.
Qed.

Lemma quiet_run {G : Type} (loop : Inputs -> Sketch G unit)
  (m : Machine G) (ins : list Inputs) :
  (forall env, button env = HIGH -> loop env m = (tt, m, [])) ->
  forallb (fun env => Level_eqb (button env) HIGH) ins = true ->
  run loop ins m = (m, []).
Proof.
  intros Hq. induction ins as [|env ins IH]; intro H; [reflexivity|].
  cbn [forallb] in H. apply andb_true_iff in H as [Hb H].
  assert (B : button env = HIGH)
    by (destruct (button env); [discriminate | reflexivity]).
  cbn [run]. rewrite (Hq env B), (IH H). reflexivity.
Qed.

(** X6.  An idle machine whose button stays released does nothing: as long
    as every pass reads the button HIGH, no pass changes a global or a
    pin, and nothing is written to the serial port or the LED.  (In the
    first sketch the debounce state must show the button released, as it
    does at power-on.) *)
Theorem released_button_keeps_idle (ins : list Inputs)
  (mu : Machine Uno.Globals) (ms : Machine Simple.Globals)
  (me : Machine Esp.Globals) :
  forallb (fun env => Level_eqb (button env) HIGH) ins = true ->
  Uno.recording (globals mu) = false ->
  Uno.lastButtonPressed (globals mu) = false ->
  Simple.recording (globals ms) = false ->
  Esp.recording (globals me) = false ->
  (final Uno.loop ins mu = mu /\ trace Uno.loop ins mu = []) /\
  (final Simple.loop ins ms = ms /\ trace Simple.loop ins ms = []) /\
  (final Esp.loop ins me = me /\ trace Esp.loop ins me = []).
Proof.
  intros H Ru Pu Rs Re. unfold final, trace.
  rewrite (quiet_run Uno.loop mu ins
             (fun env B => uno_quiet_pass env mu Ru Pu B) H).
  rewrite (quiet_run Simple.loop ms ins
             (fun env B => simple_quiet_pass env ms Rs B) H).
  rewrite (quiet_run Esp.loop me ins
             (fun env B => esp32_quiet_pass env me Re B) H).
  repeat split.
Qed.

Lemma released_button_keeps_idle_witness :
  (final Uno.loop quiet_passes Uno.power_on = Uno.power_on /\
   trace Uno.loop quiet_passes Uno.power_on = []) /\
  (final Simple.loop quiet_passes Simple.power_on = Simple.power_on /\
   trace Simple.loop quiet_passes Simple.power_on = []) /\
  (final Esp.loop quiet_passes Esp.power_on = Esp.power_on /\
   trace Esp.loop quiet_passes Esp.power_on = []).
Proof.
  apply (released_button_keeps_idle quiet_passes Uno.power_on
           Simple.power_on Esp.power_on).
  - vm_compute. reflexivity.
  - reflexivity.
  - reflexivity.
  - reflexivity.
  - reflexivity.
Defined.

(** ** The rate of the sample stream *)

(** X7.  On a clock that never runs backwards, read modulo 2^32, no run
    sends samples faster than the nominal rate: if the last sample before
    the run went out at time [T0] and the passes of the run read the clock
    at the times [Ts], the run sends at most one sample per
    [sampleInterval] (125 us on the Uno, 62 us on the ESP32) of the time
    from [T0] to its last pass. *)
Theorem sample_rate_never_exceeded (ins : list Inputs) :
  (forall m Ts T0,
     StronglySorted Z.le (T0 :: Ts) ->
     map nowUs ins = map uint32 Ts ->
     Uno.lastSampleTime (globals m) = uint32 T0 ->
     125 * Z.of_nat (samples_in is_sample (trace Uno.loop ins m))
     <= List.last Ts T0 - T0) /\
  (forall m Ts T0,
     StronglySorted Z.le (T0 :: Ts) ->
     map nowUs ins = map uint32 Ts ->
     Simple.lastSampleTime (globals m) = uint32 T0 ->
     125 * Z.of_nat (samples_in is_sample (trace Simple.loop ins m))
     <= List.last Ts T0 - T0) /\
  (forall m Ts T0,
     StronglySorted Z.le (T0 :: Ts) ->
     map nowUs ins = map uint32 Ts ->
     Esp.lastSampleTime (globals m) = uint32 T0 ->
     62 * Z.of_nat (samples_in is_sample (trace Esp.loop ins m))
     <= List.last Ts T0 - T0).
Proof.
  split; [|split]; intros m Ts T0 Hs Hr Hl.
  - change 125 with Uno.sampleInterval.
    eapply samples_rate;
      [exact uno_loop_view | reflexivity | reflexivity
      | exact uno_samples_payload | exact Hs | exact Hr | exact Hl].
  - change 125 with Simple.sampleInterval.
    eapply samples_rate;
      [exact simple_loop_view | reflexivity | reflexivity
      | exact simple_samples_payload | exact Hs | exact Hr | exact Hl].
  - change 62 with Esp.sampleInterval.
    eapply samples_rate;
      [exact esp32_loop_view | reflexivity | reflexivity
      | exact esp32_samples_payload | exact Hs | exact Hr | exact Hl].
Qed.

Lemma sample_rate_never_exceeded_witness :
  samples_in is_sample (trace Uno.loop wrap_passes uno_before_wrap) = 2%nat /\
  125 * Z.of_nat (samples_in is_sample
                    (trace Uno.loop wrap_passes uno_before_wrap))
  <= List.last wrap_times 4294967096 - 4294967096.
Proof.
  split; [vm_compute; reflexivity|].
  destruct (sample_rate_never_exceeded wrap_passes) as (H & _ & _).
  apply H.
  - unfold wrap_times. repeat constructor; lia.
  - vm_compute. reflexivity.
  - vm_compute. reflexivity.
Defined.

(** ** A press that outlasts the debounce window *)

(** The pass that sees the button change never finds the press stable. *)
Lemma uno_unstable_at_change env g :
  Uno.lastButtonPressed g = false -> Uno.stablePressed env g = false.
Proof.
  intro P. unfold Uno.stablePressed, Uno.changeMs. rewrite P.
  destruct (Uno.pressedNow env); [|reflexivity].
  cbn [Bool.eqb negb andb]. rewrite Z.sub_diag. reflexivity.
Qed.

Lemma uno_press_noticed env m :
  Uno.recording (globals m) = false ->
  Uno.lastButtonPressed (globals m) = false ->
  button env = LOW ->
  Uno.recording (globals (next Uno.loop env m)) = false /\
  Uno.lastButtonPressed (globals (next Uno.loop env m)) = true /\
  Uno.lastButtonChangeMs (globals (next Uno.loop env m)) = nowMs env.
Proof.
  intros R P B. unfold next. rewrite uno_loop_eq. cbn [fst snd].
  unfold uno_after.
  cbn [globals Uno.recording Uno.lastButtonPressed Uno.lastButtonChangeMs].
  unfold uno_active, active, started.
  rewrite R, (uno_unstable_at_change env _ P).
  unfold Uno.changeMs, Uno.pressedNow. rewrite P, B.
  repeat split.
Qed.

Lemma low_passes ins :
  forallb (fun env => Level_eqb (button env) LOW) ins = true ->
  Forall (fun env => button env = LOW) ins.
Proof.
  intro H. apply Forall_forall. intros env Hin.
  rewrite forallb_forall in H. specialize (H env Hin).
  destruct (button env); [reflexivity | discriminate].
Qed.

(** X8.  The debounce of the first sketch lets a real press through: from
    an idle machine that last saw the button released, if every pass reads
    the button LOW and the last pass reads [millis()] more than
    [debounceMs] = 40 ms after the first one, in the sketch's unsigned
    arithmetic, then a session has started by the end of the run. *)
Theorem held_press_starts_session (env0 env1 : Inputs) (mid : list Inputs)
  (m : Machine Uno.Globals) :
  Uno.recording (globals m) = false ->
  Uno.lastButtonPressed (globals m) = false ->
  forallb (fun env => Level_eqb (button env) LOW) (env0 :: mid ++ [env1])
  = true ->
  Uno.debounceMs < uint32 (nowMs env1 - nowMs env0) ->
  (1 <= count_events (is_write Uno.recordingLedPin HIGH)
          (trace Uno.loop (env0 :: mid ++ [env1]) m))%nat.
Proof.
  intros R P Hlow Hlong.
  apply low_passes in Hlow.
  apply Forall_cons_iff in Hlow as [B0 Hlow].
  apply Forall_app in Hlow as [Hmid B1].
  apply Forall_inv in B1.
  destruct (uno_press_noticed env0 m R P B0) as (R1 & P1 & C1).
  rewrite (trace_cons Uno.loop), (trace_app Uno.loop), !count_events_app.
  set (m1 := next Uno.loop env0 m) in *.
  set (m2 := final Uno.loop mid m1).
  destruct (uno_hold_keeps_debounce mid m1 Hmid P1) as [P2 C2].
  fold m2 in P2, C2.
  destruct (Uno.recording (globals m2)) eqn:R2.
  - pose proof (started_when_recording Uno.loop Uno.recording
                  Uno.sampleCount Uno.lastSampleTime Uno.maxSamples
                  Uno.sampleInterval Uno.incr Uno.stablePressed
                  Uno.start_events Uno.stop_events Uno.payload
                  uno_loop_view (is_write Uno.recordingLedPin HIGH)
                  (is_write Uno.recordingLedPin LOW)
                  eq_refl eq_refl eq_refl eq_refl mid m1 R1 R2) as H.
    lia.
  - assert (S2 : Uno.stablePressed env1 (globals m2) = true).
    { unfold Uno.stablePressed, Uno.changeMs, Uno.pressedNow.
      rewrite P2, C2, C1, B1. cbn [Level_eqb Bool.eqb negb andb].
      apply Z.gtb_lt. exact Hlong. }
    destruct (uno_idle_press_starts env1 m2 R2 S2) as [rest Hev].
    rewrite (trace_cons Uno.loop), Hev, !count_events_app.
    change (count_events (is_write Uno.recordingLedPin HIGH)
                         Uno.start_events) with 1%nat.
    lia.
Qed.

Lemma held_press_starts_session_witness :
  (1 <= count_events (is_write Uno.recordingLedPin HIGH)
          (trace Uno.loop
                 (mkInputs LOW 0 0 512 :: held 125 327 ++ [long_press_start])
                 Uno.power_on))%nat.
Proof.
  apply (held_press_starts_session (mkInputs LOW 0 0 512) long_press_start
           (held 125 327) Uno.power_on).
  - reflexivity.
  - reflexivity.
  - vm_compute. reflexivity.
  - vm_compute. reflexivity.
Defined.

(** ** The time a pass spends in [delay] *)

Lemma total_delay_app a b :
  total_delay (a ++ b) = total_delay a + total_delay b.
Proof.
  induction a as [|e a IH]; [reflexivity|].
  destruct e; cbn [app total_delay]; rewrite IH; ring.
Qed.

Lemma esp32_payload_delay env m : total_delay (Esp.payload env m) = 0.
Proof.
  unfold Esp.payload. destruct (Z.rem _ _ =? 0); reflexivity.
Qed.

(** X9.  A pass blocks in [delay] only at the edges of a session.  In the
    first Uno sketch the pass that starts a session waits 70 ms (25 marker
    gaps of 2 ms and the 20 ms guard) and the pass that ends one waits
    20 ms (10 marker gaps); in the second Uno sketch and in the ESP32
    sketch the pass that starts a session waits 200 ms; every other pass
    returns without waiting. *)
Theorem pass_blocks_only_at_session_edges (env : Inputs)
  (mu : Machine Uno.Globals) (ms : Machine Simple.Globals)
  (me : Machine Esp.Globals) :
  total_delay (events Uno.loop env mu)
  = (if Uno.recording (globals mu)
     then if Uno.recording (globals (next Uno.loop env mu)) then 0 else 20
     else if Uno.recording (globals (next Uno.loop env mu)) then 70 else 0)
  /\
  total_delay (events Simple.loop env ms)
  = (if negb (Simple.recording (globals ms))
        && Simple.recording (globals (next Simple.loop env ms))
     then 200 else 0) /\
  total_delay (events Esp.loop env me)
  = (if negb (Esp.recording (globals me))
        && Esp.recording (globals (next Esp.loop env me))
     then 200 else 0).
Proof.
  split; [|split].
  - destruct (uno_loop_view env mu) as [Vr _ _ Ve].
    rewrite Vr, Ve, !total_delay_app.
    unfold finished, counted, sampled, active, started.
    destruct (Uno.recording (globals mu));
      destruct (Uno.stablePressed env (globals mu));
      destruct (due Uno.lastSampleTime Uno.sampleInterval env (globals mu));
      cbn [andb orb negb];
      try reflexivity; destruct (_ >=? _); reflexivity.
  - destruct (simple_loop_view env ms) as [Vr _ _ Ve].
    rewrite Vr, Ve, !total_delay_app.
    unfold finished, counted, sampled, active, started.
    destruct (Simple.recording (globals ms));
      destruct (Simple.pressed env (globals ms));
      destruct (due Simple.lastSampleTime Simple.sampleInterval env
                    (globals ms));
      cbn [andb orb negb];
      try reflexivity; destruct (_ >=? _); reflexivity.
  - destruct (esp32_loop_view env me) as [Vr _ _ Ve].
    rewrite Vr, Ve, !total_delay_app.
    unfold finished, counted, sampled, active, started.
    destruct (Esp.recording (globals me));
      destruct (Esp.pressed env (globals me));
      destruct (due Esp.lastSampleTime Esp.sampleInterval env (globals me));
      cbn [andb orb negb]; rewrite ?esp32_payload_delay;
      try reflexivity; destruct (_ >=? _); reflexivity.
Qed.

(** ** From the ADC to the wire *)

Lemma payload_bytes_app f a b :
  payload_bytes f (a ++ b) = payload_bytes f a ++ payload_bytes f b.
Proof. apply flat_map_app. Qed.

Lemma serial_bytes_app a b :
  serial_bytes (a ++ b) = serial_bytes a ++ serial_bytes b.
Proof. apply flat_map_app. Qed.

Lemma uno_pass_bytes env m :
  serial_bytes (samples_of (events Uno.loop env m))
  = payload_bytes Uno.pcm_of_adc
      (if (0 <? count_events is_sample (events Uno.loop env m))%nat
       then [adc env] else []).
Proof.
  unfold events. rewrite uno_loop_eq. cbn [snd]. unfold uno_events.
  destruct (uno_started _ _), (uno_sampled _ _), (uno_finished _ _);
    reflexivity.
Qed.

Lemma simple_pass_bytes env m :
  serial_bytes (events Simple.loop env m)
  = payload_bytes Simple.pcm_of_adc
      (if (0 <? count_events is_sample (events Simple.loop env m))%nat
       then [adc env] else []).
Proof.
  unfold events. rewrite simple_loop_eq. cbn [snd]. unfold simple_events.
  destruct (simple_started _ _), (simple_sampled _ _),
    (simple_finished _ _); reflexivity.
Qed.

Lemma esp32_pass_bytes env m :
  serial_bytes (samples_of (events Esp.loop env m))
  = payload_bytes Esp.pcm_of_adc
      (if (0 <? count_events is_sample (events Esp.loop env m))%nat
       then [adc env] else []).
Proof.
  unfold events. rewrite esp32_loop_eq. cbn [snd].
  unfold esp32_events, Esp.payload.
  destruct (esp32_started _ _), (esp32_sampled _ _), (esp32_finished _ _);
    try reflexivity; destruct (Z.rem _ _ =? 0); reflexivity.
Qed.

Lemma uno_run_bytes ins : forall m,
  serial_bytes (samples_of (trace Uno.loop ins m))
  = payload_bytes Uno.pcm_of_adc (readings Uno.loop ins m).
Proof.
  induction ins as [|env ins IH]; intro m; [reflexivity|].
  rewrite (trace_cons Uno.loop). unfold samples_of in *.
  rewrite filter_app, serial_bytes_app.
  cbn [readings]. rewrite payload_bytes_app, <- IH.
  f_equal. apply uno_pass_bytes.
Qed.

Lemma simple_run_bytes ins : forall m,
  serial_bytes (trace Simple.loop ins m)
  = payload_bytes Simple.pcm_of_adc (readings Simple.loop ins m).
Proof.
  induction ins as [|env ins IH]; intro m; [reflexivity|].
  rewrite (trace_cons Simple.loop), serial_bytes_app.
  cbn [readings]. rewrite payload_bytes_app, simple_pass_bytes, IH.
  reflexivity.
Qed.

Lemma esp32_run_bytes ins : forall m,
  serial_bytes (samples_of (trace Esp.loop ins m))
  = payload_bytes Esp.pcm_of_adc (readings Esp.loop ins m).
Proof.
  induction ins as [|env ins IH]; intro m; [reflexivity|].
  rewrite (trace_cons Esp.loop). unfold samples_of in *.
  rewrite filter_app, serial_bytes_app.
  cbn [readings]. rewrite payload_bytes_app, <- IH.
  f_equal. apply esp32_pass_bytes.
Qed.

(** X10.  The sample writes of a run carry the readings of its sampling
    passes and nothing else: in each sketch, the bytes of the two-byte
    writes of the trace are the PCM bytes of the ADC readings of the passes
    that took a sample, in order.  In the second Uno sketch this is the
    whole serial stream, which therefore never spells STRT or DONE. *)
Theorem sample_stream_is_the_readings (ins : list Inputs)
  (mu : Machine Uno.Globals) (ms : Machine Simple.Globals)
  (me : Machine Esp.Globals) :
  serial_bytes (samples_of (trace Uno.loop ins mu))
  = payload_bytes Uno.pcm_of_adc (readings Uno.loop ins mu) /\
  (serial_bytes (trace Simple.loop ins ms)
   = payload_bytes Simple.pcm_of_adc (readings Simple.loop ins ms) /\
   occurs_in (ascii_bytes "STRT") (serial_bytes (trace Simple.loop ins ms))
   = false /\
   occurs_in (ascii_bytes "DONE") (serial_bytes (trace Simple.loop ins ms))
   = false) /\
  serial_bytes (samples_of (trace Esp.loop ins me))
  = payload_bytes Esp.pcm_of_adc (readings Esp.loop ins me).
Proof.
  assert (HL : forall x, Z.land (Simple.pcm_of_adc x) 255 mod 64 = 0).
  { intro x. apply low_byte_residue;
      [lia | exists 4; reflexivity | apply uno_pcm_low_bits]. }
  split; [apply uno_run_bytes | split; [|apply esp32_run_bytes]].
  rewrite simple_run_bytes. split; [reflexivity | split].
  - apply (payload_bytes_free Simple.pcm_of_adc 64 83 84 [82; 84] HL);
      discriminate.
  - apply (payload_bytes_free Simple.pcm_of_adc 64 68 79 [78; 69] HL);
      discriminate.
Qed.

(** ** A session runs to its end *)

Lemma held_press_all_due t0 n :
  125 <= t0 < 2 ^ 32 ->
  all_due 125 0 (mkInputs LOW 0 t0 512 :: held (t0 + 125) n) = true.
Proof.
  intro Ht. cbn [all_due nowUs]. rewrite (held_all_due t0), andb_true_r.
  rewrite Z.sub_0_r, uint32_small by lia. lia.
Qed.

Lemma held_press_length env t n :
  Z.of_nat n = 119999 -> Z.of_nat (length (env :: held t n)) = 120000.
Proof.
  intro Hn. cbn [length]. rewrite held_length, Nat2Z.inj_succ, Hn.
  reflexivity.
Qed.

(** X11.  A session ends after exactly [maxSamples] sampling passes: from
    an idle machine, if the first pass finds the start condition true and
    it and the passes after it all find a sample due, then after
    [maxSamples] passes the machine is idle again, and the run has emitted
    the start block, [maxSamples] samples and the stop block, in this
    order. *)
Theorem due_passes_complete_session (env : Inputs) (rest : list Inputs) :
  (forall m,
     Uno.recording (globals m) = false ->
     Uno.stablePressed env (globals m) = true ->
     all_due Uno.sampleInterval (Uno.lastSampleTime (globals m))
             (env :: rest) = true ->
     Z.of_nat (length (env :: rest)) = Uno.maxSamples ->
     Uno.recording (globals (final Uno.loop (env :: rest) m)) = false /\
     exists body,
       trace Uno.loop (env :: rest) m
       = Uno.start_events ++ body ++ Uno.stop_events /\
       Z.of_nat (samples_in is_sample body) = Uno.maxSamples) /\
  (forall m,
     Simple.recording (globals m) = false ->
     button env = LOW ->
     all_due Simple.sampleInterval (Simple.lastSampleTime (globals m))
             (env :: rest) = true ->
     Z.of_nat (length (env :: rest)) = Simple.maxSamples ->
     Simple.recording (globals (final Simple.loop (env :: rest) m)) = false
     /\
     exists body,
       trace Simple.loop (env :: rest) m
       = Simple.start_events ++ body ++ Simple.stop_events /\
       Z.of_nat (samples_in is_sample body) = Simple.maxSamples) /\
  (forall m,
     Esp.recording (globals m) = false ->
     button env = LOW ->
     all_due Esp.sampleInterval (Esp.lastSampleTime (globals m))
             (env :: rest) = true ->
     Z.of_nat (length (env :: rest)) = Esp.maxSamples ->
     Esp.recording (globals (final Esp.loop (env :: rest) m)) = false /\
     exists body,
       trace Esp.loop (env :: rest) m
       = Esp.start_events ++ body ++ Esp.stop_events /\
       Z.of_nat (samples_in is_sample body) = Esp.maxSamples).
Proof.
  split; [|split]; intros m R T Hdue Hlen.
  - exact (session_runs Uno.loop Uno.recording Uno.sampleCount
             Uno.lastSampleTime Uno.maxSamples Uno.sampleInterval
             Uno.incr Uno.stablePressed Uno.start_events Uno.stop_events
             Uno.payload is_sample uno_maxSamples_pos uno_incr_small
             uno_loop_view eq_refl eq_refl uno_samples_payload
             env rest m R T Hdue Hlen).
  - assert (T' : Simple.pressed env (globals m) = true)
      by (unfold Simple.pressed; now rewrite T).
    exact (session_runs Simple.loop Simple.recording Simple.sampleCount
             Simple.lastSampleTime Simple.maxSamples
             Simple.sampleInterval Simple.incr Simple.pressed
             Simple.start_events Simple.stop_events Simple.payload
             is_sample simple_maxSamples_pos simple_incr_small
             simple_loop_view eq_refl eq_refl simple_samples_payload
             env rest m R T' Hdue Hlen).
  - assert (T' : Esp.pressed env (globals m) = true)
      by (unfold Esp.pressed; now rewrite T).
    exact (session_runs Esp.loop Esp.recording Esp.sampleCount
             Esp.lastSampleTime Esp.maxSamples Esp.sampleInterval
             Esp.incr Esp.pressed Esp.start_events Esp.stop_events
             Esp.payload is_sample esp32_maxSamples_pos esp32_incr_small
             esp32_loop_view eq_refl eq_refl esp32_samples_payload
             env rest m R T' Hdue Hlen).
Qed.

Lemma due_passes_complete_session_witness :
  Simple.recording
    (globals (final Simple.loop
                    (mkInputs LOW 0 200125 512
                     :: held 200250 (Z.to_nat 119999))
                    Simple.power_on))
  = false.
Proof.
  destruct (due_passes_complete_session
              (mkInputs LOW 0 200125 512) (held 200250 (Z.to_nat 119999)))
    as (_ & H & _).
  destruct (H Simple.power_on) as [R _].
  - exact (eq_refl false).
  - exact (eq_refl LOW).
  - apply (held_press_all_due 200125). lia.
  - apply held_press_length. apply Z2Nat.id. discriminate.
  - exact R.
Defined.
